(** * telegram-note-bot: the sequential message pipeline of [src/index.ts]

    A shallow embedding of the bot's message handling: the authorization
    gate of [bot.on('message')], the dispatch queue drained by
    [processQueue], the attachment fetcher [downloadFile], the record
    formatter inside [processMessage] and the archive writer
    [appendToNotes].

    JavaScript strings are modelled as byte strings, numbers that count
    things (epoch milliseconds, clock fields) as [N], account ids as [Z].
    An optional field of a JS object is an [option]; JS truthiness of such
    a field is written out by [truthy]. The asynchronous functions are
    modelled by the turns of Node's event loop: [step] runs the program
    from one event (an inbound update, the settlement of a transfer or of
    a reply) to its next [await], and [run] does so along a schedule of
    events, each with the clock, random number and file-system outcome
    that the turn observes. *)

From Stdlib Require Import Ascii NArith ZArith DecimalString DecimalPos DecimalN Sorted.
From stdpp Require Import base strings list sorting gmap.

(** ** The JavaScript platform functions used by the source *)

Module JS.
Local Open Scope N_scope.

(** [value ? a : b], [if (value)] and [a || b] on an optional string:
    [undefined] and the empty string are falsy. *)
Definition truthy (v : option string) : bool :=
  match v with
  | Some s => negb (String.eqb s "")
  | None => false
  end.

(** [`${v}`] for a possibly undefined string. *)
Definition show (v : option string) : string :=
  match v with
  | Some s => s
  | None => "undefined"
  end.

(** [a || b] where [b] is a string. *)
Definition orElse (a : option string) (b : string) : string :=
  match a with
  | Some s => if String.eqb s "" then b else s
  | None => b
  end.

(** [Number.prototype.toString()] on a non-negative integer. *)
Definition toString (n : N) : string :=
  NilZero.string_of_uint (N.to_uint n).

(** [Number.prototype.toString()] on an integer. *)
Definition toStringZ (z : Z) : string :=
  NilZero.string_of_int (Z.to_int z).

Fixpoint replicate_char (n : nat) (c : ascii) : string :=
  match n with
  | O => ""
  | S k => String c (replicate_char k c)
  end.

(** [s.padStart(target, pad)] for a one-character pad. *)
Definition padStart (target : nat) (pad : ascii) (s : string) : string :=
  replicate_char (target - String.length s) pad +:+ s.

(** [s.substring(from, to)] for [from <= to]: the characters at the
    positions [from .. to-1] that exist. *)
Definition substring (from to : nat) (s : string) : string :=
  String.substring from (to - from) s.

Definition is_digit (c : ascii) : bool :=
  let n := N_of_ascii c in (48 <=? n) && (n <=? 57).

Definition is_lower (c : ascii) : bool :=
  let n := N_of_ascii c in (97 <=? n) && (n <=? 122).

Definition is_upper (c : ascii) : bool :=
  let n := N_of_ascii c in (65 <=? n) && (n <=? 90).

(** The class [[a-z0-9]] under the flag [i]. *)
Definition is_alnum (c : ascii) : bool :=
  is_digit c || is_lower c || is_upper c.

Fixpoint map_chars (f : ascii -> ascii) (s : string) : string :=
  match s with
  | EmptyString => EmptyString
  | String c r => String (f c) (map_chars f r)
  end.

Fixpoint all_chars (p : ascii -> bool) (s : string) : bool :=
  match s with
  | EmptyString => true
  | String c r => p c && all_chars p r
  end.

(** [s.replace(/[^a-z0-9]/gi, '_')] *)
Definition replace_non_alnum (s : string) : string :=
  map_chars (fun c => if is_alnum c then c else "_"%char) s.

(** *** [node:path], POSIX flavour *)

Fixpoint drop_slashes (l : list ascii) : list ascii :=
  match l with
  | c :: r => if Ascii.eqb c "/" then drop_slashes r else l
  | [] => []
  end.

Fixpoint upto_slash (l : list ascii) : list ascii :=
  match l with
  | c :: r => if Ascii.eqb c "/" then [] else c :: upto_slash r
  | [] => []
  end.

(** The last portion of a path, trailing separators ignored. *)
Definition lastSegment (p : string) : string :=
  String.string_of_list_ascii
    (rev (upto_slash (drop_slashes (rev (String.list_ascii_of_string p))))).

(** [Some (stem, ext)] where [s = stem ++ ext] and [ext] starts at the last
    dot of [s]; [None] when [s] has no dot. *)
Fixpoint splitLastDot (s : string) : option (string * string) :=
  match s with
  | EmptyString => None
  | String c r =>
      match splitLastDot r with
      | Some (stem, ext) => Some (String c stem, ext)
      | None => if Ascii.eqb c "." then Some (EmptyString, s) else None
      end
  end.

(** [path.extname(p)]: from the last dot of the last portion to its end;
    empty when there is no dot, when the only dot is the first character
    of the portion, and for the portion [..]. *)
Definition extname (p : string) : string :=
  let seg := lastSegment p in
  if String.eqb seg ".." then ""
  else match splitLastDot seg with
       | Some (EmptyString, _) => ""
       | Some (_, ext) => ext
       | None => ""
       end.

Fixpoint strip_suffix_rev (ext seg : list ascii) : option (list ascii) :=
  match ext, seg with
  | [], _ => Some seg
  | e :: ext', c :: seg' =>
      if Ascii.eqb e c then strip_suffix_rev ext' seg' else None
  | _ :: _, [] => None
  end.

(** [path.basename(p, ext)]: the last portion of [p], without the suffix
    [ext] when the portion ends with it and is longer than it. *)
Definition basename (p ext : string) : string :=
  let seg := lastSegment p in
  if String.eqb ext "" then seg
  else if String.eqb ext p then ""
  else
    match strip_suffix_rev (rev (String.list_ascii_of_string ext))
                           (rev (String.list_ascii_of_string seg)) with
    | Some [] => seg
    | Some stem => String.string_of_list_ascii (rev stem)
    | None => seg
    end.

(** A [Date] object, as far as the source reads it: the local-time getters
    [getHours], [getMinutes], [getSeconds], [getDate] and [getMonth]. *)
Record Date := {
  getHours : N;
  getMinutes : N;
  getSeconds : N;
  getDate : N;
  getMonth : N
}.

(** The ranges the getters of a valid [Date] stay in. *)
Definition validDate (d : Date) : Prop :=
  getHours d < 24 /\ getMinutes d < 60 /\ getSeconds d < 60 /\
  1 <= getDate d <= 31 /\ getMonth d < 12.

End JS.

(** ** Deployment: the values fixed when the process starts *)

(** [PROJECT_ROOT] and [ALLOWED_USER_ID] are read once at start-up;
    [newDate ms] is [new Date(ms)], the platform's local-time reading of an
    instant given in epoch milliseconds (it depends on the host's time
    zone). *)
Class Deployment := {
  PROJECT_ROOT : string;
  ALLOWED_USER_ID : string;
  newDate : N -> JS.Date
}.

(** [path.join(dir, name)] for a directory path without trailing separator
    and a plain file name. *)
Definition path_join (dir name : string) : string := dir +:+ "/" +:+ name.

(** ** Data model *)

Record AttachmentEntry := {
  name : string;
  type : string;
  originalName : option string
}.

Record ForwardUser := {
  username : option string;
  first_name : option string
}.

Record ForwardChat := { title : option string }.

(** [{ file_id: string }] *)
Record FileId := { file_id : string }.

(** [{ file_id: string; file_name?: string }] *)
Record NamedFile := {
  named_file_id : string;
  file_name : option string
}.

(** [IncomingMessage = ForwardMeta & MediaMeta], with the [date] that
    [processMessage] reads from [ctx.message]. *)
Record IncomingMessage := {
  date : option N;
  forward_from : option ForwardUser;
  forward_from_chat : option ForwardChat;
  forward_sender_name : option string;
  text : option string;
  caption : option string;
  photo : option (list FileId);
  document : option NamedFile;
  video : option FileId;
  audio : option NamedFile;
  voice : option FileId;
  video_note : option FileId
}.

(** The part of a Telegraf context the handler reads: [ctx.from?.id] and
    [ctx.message]. *)
Record MessageContext := {
  from_id : option Z;
  message : option IncomingMessage
}.

(** What the world supplies to one synchronous run of the program (from
    one resumption to the next [await]): the clock read by [Date.now()]
    and [new Date()], the string [Math.random().toString(36)], and whether
    [fs.appendFileSync] succeeds. *)
Record Env := {
  clock : N;
  random36 : string;
  appendSucceeds : bool
}.

(** ** Timestamp and file-name utilities *)

Definition MONTH_NAMES : list string :=
  ["jan"; "feb"; "mar"; "apr"; "may"; "jun";
   "jul"; "aug"; "sep"; "oct"; "nov"; "dec"].

Section Utilities.
Context `{Deployment}.

Definition NOTES_DIR : string := path_join PROJECT_ROOT "notes".
Definition ATTACHMENTS_DIR : string := path_join PROJECT_ROOT "attachments".

Definition pad2 (n : N) : string := JS.padStart 2 "0" (JS.toString n).

(** [unixTimestamp ? new Date(unixTimestamp * 1000) : new Date()]: an
    absent timestamp and the number 0 are falsy. *)
Definition timestampDate (e : Env) (unixTimestamp : option N) : JS.Date :=
  match unixTimestamp with
  | Some 0%N | None => newDate (clock e)
  | Some t => newDate (t * 1000)%N
  end.

Definition getTimestamp (e : Env) (unixTimestamp : option N) : string :=
  let date := timestampDate e unixTimestamp in
  pad2 (JS.getHours date) +:+ ":" +:+ pad2 (JS.getMinutes date) +:+ ":"
    +:+ pad2 (JS.getSeconds date).

Definition getDayNotesFile (e : Env) : string :=
  let now := newDate (clock e) in
  let day := JS.getDate now in
  let month := JS.show (MONTH_NAMES !! N.to_nat (JS.getMonth now)) in
  let baseName := JS.toString day +:+ "-" +:+ month in
  path_join NOTES_DIR (baseName +:+ ".md").

End Utilities.

Definition generateFileName (e : Env) (baseName extension : string) : string :=
  let timestamp := clock e in
  let random := JS.substring 2 8 (random36 e) in
  let sanitized :=
    if String.eqb baseName "" then "file" else JS.replace_non_alnum baseName in
  JS.toString timestamp +:+ "_" +:+ random +:+ "_" +:+ sanitized +:+ extension.

Definition formatForwardInfo (m : IncomingMessage) : string :=
  match forward_from m with
  | Some u =>
      let forwardedFrom :=
        if JS.truthy (username u)
        then "@" +:+ JS.show (username u)
        else JS.show (first_name u) in
      " - Forwarded from " +:+ forwardedFrom
  | None =>
      match forward_from_chat m with
      | Some c => " - Forwarded from " +:+ JS.show (title c)
      | None =>
          if JS.truthy (forward_sender_name m)
          then " - Forwarded from " +:+ JS.show (forward_sender_name m)
          else ""
      end
  end.

(** ** Attachments of a message *)

(** The six attachment branches of [processMessage], in source order. *)
Inductive Kind := Photo | Document | Video | Audio | Voice | VideoNote.

Definition kinds : list Kind := [Photo; Document; Video; Audio; Voice; VideoNote].

(** The [type] each branch writes into its [AttachmentEntry]. *)
Definition label (k : Kind) : string :=
  match k with
  | Photo => "Photo"
  | Document => "Document"
  | Video => "Video"
  | Audio => "Audio"
  | Voice => "Voice"
  | VideoNote => "Video Note"
  end.

(** What a branch settles before it calls [generateFileName] and
    [downloadFile]: the media reference, the two arguments of
    [generateFileName] and the [originalName] of the entry it pushes. *)
Record Fetch := {
  f_kind : Kind;
  f_file_id : string;
  f_baseName : string;
  f_extension : string;
  f_originalName : option string
}.

Definition plain (k : Kind) (r : FileId) (baseName extension : string) : Fetch :=
  {| f_kind := k; f_file_id := file_id r; f_baseName := baseName;
     f_extension := extension; f_originalName := None |}.

(** The guard and the local constants of the branch for kind [k]; [None]
    when the guard fails and the branch is skipped. *)
Definition fetchOf (m : IncomingMessage) (k : Kind) : option Fetch :=
  match k with
  | Photo =>
      match photo m with
      | Some (p :: ps) => Some (plain Photo (List.last ps p) "photo" ".jpg")
      | _ => None
      end
  | Document =>
      match document m with
      | Some d =>
          let extension :=
            if JS.truthy (file_name d) then JS.extname (JS.show (file_name d)) else "" in
          let baseName :=
            if JS.truthy (file_name d)
            then JS.basename (JS.show (file_name d)) extension else "document" in
          Some {| f_kind := Document; f_file_id := named_file_id d;
                  f_baseName := baseName;
                  f_extension := JS.orElse (Some extension) ".bin";
                  f_originalName := Some (JS.orElse (file_name d) baseName) |}
      | None => None
      end
  | Video =>
      match video m with
      | Some v => Some (plain Video v "video" ".mp4")
      | None => None
      end
  | Audio =>
      match audio m with
      | Some a =>
          let extension :=
            if JS.truthy (file_name a) then JS.extname (JS.show (file_name a)) else ".mp3" in
          let baseName :=
            if JS.truthy (file_name a)
            then JS.basename (JS.show (file_name a)) extension else "audio" in
          Some {| f_kind := Audio; f_file_id := named_file_id a;
                  f_baseName := baseName;
                  f_extension := extension;
                  f_originalName := Some (JS.orElse (file_name a) baseName) |}
      | None => None
      end
  | Voice =>
      match voice m with
      | Some v => Some (plain Voice v "voice" ".ogg")
      | None => None
      end
  | VideoNote =>
      match video_note m with
      | Some v => Some (plain VideoNote v "video_note" ".mp4")
      | None => None
      end
  end.

(** The first branch among [ks] whose guard holds, and the branches after
    it. *)
Fixpoint nextFetch (m : IncomingMessage) (ks : list Kind) : option (Fetch * list Kind) :=
  match ks with
  | [] => None
  | k :: rest =>
      match fetchOf m k with
      | Some f => Some (f, rest)
      | None => nextFetch m rest
      end
  end.

(** [if (saved) attachments.push({ name: saved, type, originalName })] *)
Definition pushSaved (f : Fetch) (saved : option string)
    (attachments : list AttachmentEntry) : list AttachmentEntry :=
  if JS.truthy saved
  then attachments ++ [{| name := JS.show saved; type := label (f_kind f);
                          originalName := f_originalName f |}]
  else attachments.

(** ** Record formatter *)

(** The line feed. *)
Definition NL : string := String "010" "".

Definition displayName (att : AttachmentEntry) : string :=
  JS.orElse (originalName att) (name att).

Definition isImage (att : AttachmentEntry) : bool :=
  existsb (String.eqb (type att)) ["Photo"; "Video"; "Video Note"].

(** One line of the Attachments section. *)
Definition renderAttachment (att : AttachmentEntry) : string :=
  if isImage att
  then "![" +:+ displayName att +:+ "](../attachments/" +:+ name att +:+ ")" +:+ NL
  else "- [" +:+ displayName att +:+ "](../attachments/" +:+ name att +:+ ") _("
         +:+ type att +:+ ")_" +:+ NL.

Fixpoint concat_strings (l : list string) : string :=
  match l with
  | [] => ""
  | s :: r => s +:+ concat_strings r
  end.

(** [if (attachments.length > 0) { ... }] *)
Definition renderAttachments (attachments : list AttachmentEntry) : string :=
  match attachments with
  | [] => ""
  | _ :: _ =>
      NL +:+ "**Attachments:**" +:+ NL +:+ concat_strings (map renderAttachment attachments)
  end.

(** The body line: the text when truthy, else the caption when truthy. *)
Definition renderBody (m : IncomingMessage) : string :=
  if JS.truthy (text m) then JS.show (text m) +:+ NL
  else if JS.truthy (caption m) then JS.show (caption m) +:+ NL
  else "".

Section Formatter.
Context `{Deployment}.

(** [markdownContent] as [processMessage] has built it when it reaches the
    attachment branches. *)
Definition renderHead (e : Env) (m : IncomingMessage) : string :=
  NL +:+ "---" +:+ NL +:+ "**" +:+ getTimestamp e (date m) +:+ "**"
    +:+ formatForwardInfo m +:+ NL +:+ NL +:+ renderBody m.

End Formatter.

(** [markdownContent] when it is handed to [appendToNotes]. *)
Definition renderTail (markdownContent : string)
    (attachments : list AttachmentEntry) : string :=
  markdownContent +:+ renderAttachments attachments +:+ NL +:+ "---" +:+ NL.

(** ** The running process

    Node runs the program on one thread: a handler or a resumed [async]
    function runs without interruption until it returns or reaches its
    next [await]. The state below is the program's module-level state
    ([messageQueue], [isProcessing]), the invocations of [processQueue]
    that are suspended at an [await], the part of the world the program
    writes (note files, attachment files, console diagnostics, replies),
    and a history of what the pipeline did, kept to state the ordering
    properties. *)

(** Settlements of [downloadFile]'s transfer, by the listener of the
    source that receives them. *)
Inductive Transfer :=
| LinkRejected      (** [bot.telegram.getFileLink] rejects *)
| RequestError      (** ['error'] on the request returned by [https.get] *)
| Finished          (** the response arrives and the write stream emits ['finish'] *)
| WriteStreamError. (** the write stream emits ['error'] after it opened the
                        file: the source registers no listener for it *)

(** Where a suspended [processMessage] waits. *)
Inductive Await :=
| AwaitDownload (f : Fetch) (fileName : string) (rest : list Kind)
| AwaitReply
| AwaitNever. (** the awaited promise can no longer be settled *)

(** A call of [processQueue] suspended at [await processMessage(ctx)],
    with the locals of that [processMessage]. [ticket] numbers the queued
    contexts in the order of their [push]. *)
Record Task := {
  ticket : nat;
  task_message : IncomingMessage;
  markdownContent : string;
  attachments : list AttachmentEntry;
  await : Await
}.

(** The diagnostics of the gate and the [console.error] lines of the
    failure handlers; the progress lines of [console.log] are left out. *)
Inductive Diagnostic :=
| RejectedNoSender
| RejectedUnauthorized (userId : string)
| NoPayload
| DownloadFailed (fileName : string)
| NotesWriteError.

(** What the pipeline does for the context with a given ticket. *)
Inductive Action :=
| Started (t : nat) (m : IncomingMessage)          (** [processMessage] entered *)
| FetchStarted (t : nat) (fileId fileName : string) (** [downloadFile] called *)
| Appended (t : nat) (file content : string) (ok : bool) (** [fs.appendFileSync] called *)
| Replied (t : nat).                                (** [ctx.reply] called *)

Definition ticketOf (a : Action) : nat :=
  match a with
  | Started t _ | FetchStarted t _ _ | Appended t _ _ _ | Replied t => t
  end.

(** A queued context always has a payload (the handler returns before the
    [push] otherwise), so the queue holds the payloads, each with its
    ticket. [notes] maps the path of a note file to its content;
    [attachmentFiles] holds the names of the files in [ATTACHMENTS_DIR]. *)
Record State := {
  messageQueue : list (nat * IncomingMessage);
  isProcessing : bool;
  suspended : list Task;
  notes : gmap string string;
  attachmentFiles : gset string;
  console : list Diagnostic;
  trace : list Action;      (** newest first *)
  pushed : nat              (** number of [messageQueue.push] so far *)
}.

Definition initial : State :=
  {| messageQueue := []; isProcessing := false; suspended := [];
     notes := ∅; attachmentFiles := ∅; console := []; trace := [];
     pushed := 0 |}.

Definition set_queue (q : list (nat * IncomingMessage)) (s : State) : State :=
  {| messageQueue := q; isProcessing := isProcessing s;
     suspended := suspended s; notes := notes s;
     attachmentFiles := attachmentFiles s; console := console s;
     trace := trace s; pushed := pushed s |}.

Definition set_isProcessing (b : bool) (s : State) : State :=
  {| messageQueue := messageQueue s; isProcessing := b;
     suspended := suspended s; notes := notes s;
     attachmentFiles := attachmentFiles s; console := console s;
     trace := trace s; pushed := pushed s |}.

Definition set_suspended (l : list Task) (s : State) : State :=
  {| messageQueue := messageQueue s; isProcessing := isProcessing s;
     suspended := l; notes := notes s;
     attachmentFiles := attachmentFiles s; console := console s;
     trace := trace s; pushed := pushed s |}.

Definition set_notes (n : gmap string string) (s : State) : State :=
  {| messageQueue := messageQueue s; isProcessing := isProcessing s;
     suspended := suspended s; notes := n;
     attachmentFiles := attachmentFiles s; console := console s;
     trace := trace s; pushed := pushed s |}.

Definition set_attachmentFiles (a : gset string) (s : State) : State :=
  {| messageQueue := messageQueue s; isProcessing := isProcessing s;
     suspended := suspended s; notes := notes s;
     attachmentFiles := a; console := console s;
     trace := trace s; pushed := pushed s |}.

Definition log (d : Diagnostic) (s : State) : State :=
  {| messageQueue := messageQueue s; isProcessing := isProcessing s;
     suspended := suspended s; notes := notes s;
     attachmentFiles := attachmentFiles s; console := d :: console s;
     trace := trace s; pushed := pushed s |}.

Definition record (a : Action) (s : State) : State :=
  {| messageQueue := messageQueue s; isProcessing := isProcessing s;
     suspended := suspended s; notes := notes s;
     attachmentFiles := attachmentFiles s; console := console s;
     trace := a :: trace s; pushed := pushed s |}.

Definition push (m : IncomingMessage) (s : State) : State :=
  {| messageQueue := messageQueue s ++ [(pushed s, m)];
     isProcessing := isProcessing s;
     suspended := suspended s; notes := notes s;
     attachmentFiles := attachmentFiles s; console := console s;
     trace := trace s; pushed := S (pushed s) |}.

Definition suspend (t : Task) (s : State) : State :=
  set_suspended (suspended s ++ [t]) s.

(** The history in the order things happened. *)
Definition history (s : State) : list Action := rev (trace s).

(** [fs.appendFileSync(file, data)]: creates the file when it is missing. *)
Definition appendFile (file data : string) (fs : gmap string string) : gmap string string :=
  <[file := default "" (fs !! file) +:+ data]> fs.

Section Pipeline.
Context `{Deployment}.

(** [appendToNotes(content)] on behalf of ticket [t]: a throw of
    [fs.appendFileSync] is caught and logged. *)
Definition appendToNotes (e : Env) (t : nat) (content : string) (s : State) : State :=
  let notesFile := getDayNotesFile e in
  if appendSucceeds e
  then record (Appended t notesFile (content +:+ NL) true)
         (set_notes (appendFile notesFile (content +:+ NL) (notes s)) s)
  else log NotesWriteError (record (Appended t notesFile (content +:+ NL) false) s).

(** [downloadFile(fileId, fileName)] from the settlement of its transfer
    on: the files it leaves, its diagnostics, and the value its promise
    resolves to ([Some null] or [Some fileName]), [None] when no listener
    of the source settles the promise. *)
Definition downloadFile (o : Transfer) (fileName : string) (s : State)
    : State * option (option string) :=
  match o with
  | LinkRejected => (log (DownloadFailed fileName) s, Some None)
  | RequestError =>
      let created := {[ fileName ]} ∪ attachmentFiles s in
      (log (DownloadFailed fileName)
         (set_attachmentFiles (created ∖ {[ fileName ]}) s), Some None)
  | Finished =>
      (set_attachmentFiles ({[ fileName ]} ∪ attachmentFiles s) s,
       Some (Some fileName))
  | WriteStreamError =>
      (set_attachmentFiles ({[ fileName ]} ∪ attachmentFiles s) s, None)
  end.

(** [processMessage] from the attachment branches [ks] on, up to its next
    [await]: either the next [downloadFile] whose guard holds, or, after
    the last branch, the rendering, [appendToNotes] and [ctx.reply]. *)
Definition proceed (e : Env) (t : nat) (m : IncomingMessage) (md : string)
    (atts : list AttachmentEntry) (ks : list Kind) (s : State) : State :=
  match nextFetch m ks with
  | Some (f, rest) =>
      let fileName := generateFileName e (f_baseName f) (f_extension f) in
      suspend {| ticket := t; task_message := m; markdownContent := md;
                 attachments := atts; await := AwaitDownload f fileName rest |}
        (record (FetchStarted t (f_file_id f) fileName) s)
  | None =>
      let md' := renderTail md atts in
      suspend {| ticket := t; task_message := m; markdownContent := md';
                 attachments := atts; await := AwaitReply |}
        (record (Replied t) (appendToNotes e t md' s))
  end.

(** [processMessage(ctx)] up to its first [await]. *)
Definition processMessage (e : Env) (t : nat) (m : IncomingMessage) (s : State) : State :=
  proceed e t m (renderHead e m) [] kinds (record (Started t m) s).

(** The [while] loop of [processQueue] up to its next [await]:
    [processMessage] always reaches an [await] before it returns. *)
Definition drain (e : Env) (s : State) : State :=
  match messageQueue s with
  | (t, m) :: rest => processMessage e t m (set_queue rest s)
  | [] => set_isProcessing false s
  end.

Definition processQueue (e : Env) (s : State) : State :=
  if isProcessing s || bool_decide (messageQueue s = [])
  then s
  else drain e (set_isProcessing true s).

(** The handler of [bot.on('message')]. *)
Definition onMessage (e : Env) (ctx : MessageContext) (s : State) : State :=
  match from_id ctx with
  | None => log RejectedNoSender s
  | Some id =>
      let userId := JS.toStringZ id in
      if String.eqb userId "" then log RejectedNoSender s
      else if negb (String.eqb userId ALLOWED_USER_ID)
      then log (RejectedUnauthorized userId) s
      else match message ctx with
           | None => log NoPayload s
           | Some m => processQueue e (push m s)
           end
  end.

(** What the event loop delivers: an inbound update, or the settlement of
    the I/O that the [i]-th suspended task waits for. *)
Inductive Event :=
| Inbound (ctx : MessageContext)
| TransferSettled (i : nat) (o : Transfer)
| ReplySettled (i : nat) (ok : bool).

(** One turn of the event loop. A settlement resumes the task that waits
    for it and is ignored by any other. After a transfer, [processMessage]
    pushes the saved entry and goes on with the branches that remain;
    when no listener settled the promise the task waits for ever (Node
    would report the unhandled ['error'] event as an uncaught exception).
    After a fulfilled reply, [processMessage] returns and the [while]
    loop of [processQueue] goes on; a rejected reply is thrown out of
    [processMessage] and, through [await processMessage(ctx)], out of
    [processQueue], which ends without reaching [isProcessing = false]. *)
Definition step (e : Env) (ev : Event) (s : State) : State :=
  match ev with
  | Inbound ctx => onMessage e ctx s
  | TransferSettled i o =>
      match suspended s !! i with
      | Some tk =>
          match await tk with
          | AwaitDownload f fileName rest =>
              let s0 := set_suspended (delete i (suspended s)) s in
              match downloadFile o fileName s0 with
              | (s1, Some saved) =>
                  proceed e (ticket tk) (task_message tk) (markdownContent tk)
                    (pushSaved f saved (attachments tk)) rest s1
              | (s1, None) =>
                  suspend {| ticket := ticket tk; task_message := task_message tk;
                             markdownContent := markdownContent tk;
                             attachments := attachments tk; await := AwaitNever |} s1
              end
          | _ => s
          end
      | None => s
      end
  | ReplySettled i ok =>
      match suspended s !! i with
      | Some tk =>
          match await tk with
          | AwaitReply =>
              let s0 := set_suspended (delete i (suspended s)) s in
              if ok then drain e s0 else s0
          | _ => s
          end
      | None => s
      end
  end.

Fixpoint run (sched : list (Env * Event)) (s : State) : State :=
  match sched with
  | [] => s
  | (e, ev) :: rest => run rest (step e ev s)
  end.

End Pipeline.

(** ** A concrete deployment: a host whose local time is UTC *)

(** [new Date(ms)] read in UTC: the time of day by division, the calendar
    day by the usual days-to-civil conversion over 400-year eras that
    start on 1 March. *)
Definition utcDate (ms : N) : JS.Date := (
  let secs := ms / 1000 in
  let days := secs / 86400 in
  let z := days + 719468 in
  let era := z / 146097 in
  let doe := z - era * 146097 in
  let yoe := (doe - doe / 1460 + doe / 36524 - doe / 146096) / 365 in
  let doy := doe - (365 * yoe + yoe / 4 - yoe / 100) in
  let mp := (5 * doy + 2) / 153 in
  {| JS.getHours := (secs / 3600) mod 24;
     JS.getMinutes := (secs / 60) mod 60;
     JS.getSeconds := secs mod 60;
     JS.getDate := doy - (153 * mp + 2) / 5 + 1;
     JS.getMonth := if mp <? 10 then mp + 2 else mp - 10 |})%N.

Definition utcHost : Deployment :=
  {| PROJECT_ROOT := "/srv/bot"; ALLOWED_USER_ID := "42"; newDate := utcDate |}.

(** ** The words of the specification *)

Module Spec.

(** [HH], [MM], [SS]: a clock field written with exactly two decimal
    digits. *)
Definition twoDigits (n : N) : string :=
  String (ascii_of_N (48 + n / 10)) (String (ascii_of_N (48 + n mod 10)) "").

(** The class [[a-z0-9]] of the stored-name pattern (no flag). *)
Definition is_token_char (c : ascii) : bool := JS.is_digit c || JS.is_lower c.

(** The longest prefix of [s] whose characters satisfy [p], and the rest. *)
Fixpoint span (p : ascii -> bool) (s : string) : string * string :=
  match s with
  | String c r =>
      if p c then let '(a, b) := span p r in (String c a, b) else (EmptyString, s)
  | EmptyString => (EmptyString, EmptyString)
  end.

(** A matcher for [^\d+_[a-z0-9]{n}_<tail>$]: the digits of [\d+] end at
    the first underscore, so the longest run of digits is the only
    candidate. *)
Definition matchesStored (n : nat) (tail s : string) : bool :=
  let '(digits, r1) := span JS.is_digit s in
  negb (String.eqb digits "") &&
  match r1 with
  | String "_" r2 =>
      let token := String.substring 0 n r2 in
      let r3 := String.substring n (String.length r2 - n) r2 in
      Nat.eqb (String.length token) n && JS.all_chars is_token_char token
        && String.eqb r3 ("_" +:+ tail)
  | _ => false
  end.

(** [s] is ["0."] followed by at least [n] characters, the first [n] of
    them base-36 digits: a rendering of a number below one with at least
    [n] digits after the point. *)
Definition fractionDigits (n : nat) (s : string) : Prop :=
  String.substring 0 2 s = "0." /\
  String.length (String.substring 2 n s) = n /\
  JS.all_chars is_token_char (String.substring 2 n s) = true.

(** The filename the source declared for the attachment of kind [k], when
    it provided one. *)
Definition declaredName (m : IncomingMessage) (k : Kind) : option string :=
  match k with
  | Document =>
      match document m with
      | Some d => if JS.truthy (file_name d) then file_name d else None
      | None => None
      end
  | Audio =>
      match audio m with
      | Some a => if JS.truthy (file_name a) then file_name a else None
      | None => None
      end
  | _ => None
  end.

(** A message that carries no attachment of any kind. *)
Definition noMedia (m : IncomingMessage) : Prop :=
  photo m = None /\ document m = None /\ video m = None /\
  audio m = None /\ voice m = None /\ video_note m = None.

(** A message without forward provenance. *)
Definition noProvenance (m : IncomingMessage) : Prop :=
  forward_from m = None /\ forward_from_chat m = None /\
  forward_sender_name m = None.

(** The sender identity of an event, as the gate compares it. *)
Definition senderId (ctx : MessageContext) : option string :=
  JS.toStringZ <$> from_id ctx.

End Spec.

(** ** Quantities of the history *)

(** The tickets whose record was handed to [fs.appendFileSync]. *)
Fixpoint appendTickets (l : list Action) : list nat :=
  match l with
  | Appended t _ _ _ :: r => t :: appendTickets r
  | _ :: r => appendTickets r
  | [] => []
  end.

(** The contexts for which [processMessage] was entered. *)
Fixpoint starts (l : list Action) : list (nat * IncomingMessage) :=
  match l with
  | Started t m :: r => (t, m) :: starts r
  | _ :: r => starts r
  | [] => []
  end.

(** What the successful appends of a history have written to [file], in
    the order of the list. *)
Fixpoint written (file : string) (l : list Action) : string :=
  match l with
  | Appended _ f content true :: r =>
      if String.eqb f file then content +:+ written file r else written file r
  | _ :: r => written file r
  | [] => ""
  end.

(** The number of contexts taken off the queue so far. *)
Definition shifted (s : State) : nat := pushed s - length (messageQueue s).

Section Accepted.
Context `{Deployment}.

(** The payloads, among the inbound events of a schedule, that pass the
    gate and are pushed, numbered from [n] in arrival order. *)
Fixpoint accepted (n : nat) (sched : list (Env * Event)) : list (nat * IncomingMessage) :=
  match sched with
  | (_, Inbound ctx) :: rest =>
      match message ctx with
      | Some m =>
          if bool_decide (Spec.senderId ctx = Some ALLOWED_USER_ID)
          then (n, m) :: accepted (S n) rest
          else accepted n rest
      | None => accepted n rest
      end
  | _ :: rest => accepted n rest
  | [] => []
  end.

End Accepted.

(** The invariant of the dispatch queue. *)
Record Inv (s : State) : Prop := {
  inv_one : length (suspended s) <= 1;
  inv_busy : forall tk, tk ∈ suspended s ->
      isProcessing s = true /\ S (ticket tk) = shifted s;
  inv_idle : isProcessing s = false -> messageQueue s = [];
  inv_queue : map fst (messageQueue s) = seq (shifted s) (length (messageQueue s));
  inv_len : length (messageQueue s) <= pushed s;
  inv_trace : Forall (fun a => ticketOf a < shifted s) (trace s);
  inv_sorted : StronglySorted (fun a b => ticketOf b <= ticketOf a) (trace s);
  inv_app_sorted : StronglySorted (fun a b => b < a) (appendTickets (trace s));
  inv_app_pending : forall tk, tk ∈ suspended s -> await tk <> AwaitReply ->
      Forall (fun t => t < ticket tk) (appendTickets (trace s))
}.

(** Every note file holds what the successful appends wrote to it. *)
Definition archived (s : State) : Prop :=
  forall file, default "" (notes s !! file) = written file (history s).

(** In a well-formed history every hand-over to [fs.appendFileSync] is
    directly followed by the call of [ctx.reply] for the same context
    (the list is newest first). *)
Inductive Acked : list Action -> Prop :=
| Acked_nil : Acked []
| Acked_started t m l : Acked l -> Acked (Started t m :: l)
| Acked_fetch t i n l : Acked l -> Acked (FetchStarted t i n :: l)
| Acked_append t f c ok l : Acked l -> Acked (Replied t :: Appended t f c ok :: l).

(** ** Sample inputs *)

Module Sample.

Definition empty : IncomingMessage :=
  {| date := Some 1793689323%N;
     forward_from := None; forward_from_chat := None;
     forward_sender_name := None; text := None; caption := None;
     photo := None; document := None; video := None; audio := None;
     voice := None; video_note := None |}.

Definition withText (txt : string) : IncomingMessage :=
  {| date := date empty;
     forward_from := None; forward_from_chat := None;
     forward_sender_name := None; text := Some txt; caption := None;
     photo := None; document := None; video := None; audio := None;
     voice := None; video_note := None |}.

Definition withDocument (d : NamedFile) : IncomingMessage :=
  {| date := date empty;
     forward_from := None; forward_from_chat := None;
     forward_sender_name := None; text := None; caption := None;
     photo := None; document := Some d; video := None; audio := None;
     voice := None; video_note := None |}.

Definition forwarded (u : option ForwardUser) (c : option ForwardChat)
    (n : option string) : IncomingMessage :=
  {| date := date empty;
     forward_from := u; forward_from_chat := c;
     forward_sender_name := n; text := Some "fyi"; caption := None;
     photo := None; document := None; video := None; audio := None;
     voice := None; video_note := None |}.

Definition planDocument : NamedFile :=
  {| named_file_id := "BQACAgIAAx0"; file_name := Some "plan v2.docx" |}.

Definition unnamedDocument : NamedFile :=
  {| named_file_id := "BQACAgIAAx1"; file_name := None |}.

Definition alice : ForwardUser :=
  {| username := Some "alice"; first_name := Some "Alice" |}.

Definition aliceNoHandle : ForwardUser :=
  {| username := None; first_name := Some "Alice" |}.

Definition news : ForwardChat := {| title := Some "News" |}.

(** An update from the allowed account of [utcHost]. *)
Definition fromOwner (m : IncomingMessage) : MessageContext :=
  {| from_id := Some 42%Z; message := Some m |}.

Definition fromStranger (m : IncomingMessage) : MessageContext :=
  {| from_id := Some 7%Z; message := Some m |}.

(** 3 November 2026, 07:02:03 UTC, with a random number whose base-36
    rendering is long. *)
Definition morning : Env :=
  {| clock := 1793689323000%N; random36 := "0.4fzyo82mvyr";
     appendSucceeds := true |}.

(** The same instant, with [Math.random()] returning one half, whose
    base-36 rendering is [0.i]. *)
Definition morningHalf : Env :=
  {| clock := 1793689323000%N; random36 := "0.i"; appendSucceeds := true |}.

(** A little later the same day. *)
Definition later : Env :=
  {| clock := 1793689383000%N; random36 := "0.k3v9x0a7c2f";
     appendSucceeds := true |}.

(** The same instant as [morning], with the notes file not writable. *)
Definition morningReadOnly : Env :=
  {| clock := 1793689323000%N; random36 := "0.4fzyo82mvyr";
     appendSucceeds := false |}.

(** A document without declared filename is fetched. *)
Definition fetchUnnamed : list (Env * Event) :=
  [(morning, Inbound (fromOwner (withDocument unnamedDocument)));
   (later, TransferSettled 0 Finished)].

(** The reply for the first of two messages is rejected by the transport. *)
Definition replyFails : list (Env * Event) :=
  [(morning, Inbound (fromOwner (withText "one")));
   (later, ReplySettled 0 false);
   (later, Inbound (fromOwner (withText "two")))].

(** The write stream of a document's transfer fails. *)
Definition writeStreamFails : list (Env * Event) :=
  [(morning, Inbound (fromOwner (withDocument planDocument)));
   (later, TransferSettled 0 WriteStreamError)].

End Sample.

(** ** The earlier handler of [index.js]

    The repository also holds the bot's first version, one [async] handler
    without a queue. Its attachment branches differ from the current ones
    in the file name (no random token), in the extension of a document
    (no [.bin] default), in the [originalName] of documents and audio
    (the declared name as it is) and in the rendering (every attachment
    is a list item). *)

Module Legacy.

(** [generateFileName(originalName, extension)] *)
Definition generateFileName (e : Env) (originalName extension : string) : string :=
  let timestamp := clock e in
  let sanitized :=
    if String.eqb originalName "" then "file"
    else JS.replace_non_alnum originalName in
  JS.toString timestamp +:+ "_" +:+ sanitized +:+ extension.

(** The guard and the local constants of the branch for kind [k]. *)
Definition fetchOf (m : IncomingMessage) (k : Kind) : option Fetch :=
  match k with
  | Photo =>
      match photo m with
      | Some (p :: ps) => Some (plain Photo (List.last ps p) "photo" ".jpg")
      | _ => None
      end
  | Document =>
      match document m with
      | Some d =>
          let extension :=
            if JS.truthy (file_name d) then JS.extname (JS.show (file_name d)) else "" in
          let baseName :=
            if JS.truthy (file_name d)
            then JS.basename (JS.show (file_name d)) extension else "document" in
          Some {| f_kind := Document; f_file_id := named_file_id d;
                  f_baseName := baseName; f_extension := extension;
                  f_originalName := file_name d |}
      | None => None
      end
  | Video =>
      match video m with
      | Some v => Some (plain Video v "video" ".mp4")
      | None => None
      end
  | Audio =>
      match audio m with
      | Some a =>
          let extension :=
            if JS.truthy (file_name a) then JS.extname (JS.show (file_name a)) else ".mp3" in
          let baseName :=
            if JS.truthy (file_name a)
            then JS.basename (JS.show (file_name a)) extension else "audio" in
          Some {| f_kind := Audio; f_file_id := named_file_id a;
                  f_baseName := baseName; f_extension := extension;
                  f_originalName := file_name a |}
      | None => None
      end
  | Voice =>
      match voice m with
      | Some v => Some (plain Voice v "voice" ".ogg")
      | None => None
      end
  | VideoNote =>
      match video_note m with
      | Some v => Some (plain VideoNote v "video_note" ".mp4")
      | None => None
      end
  end.

(** One line of the Attachments section. *)
Definition renderAttachment (att : AttachmentEntry) : string :=
  "- [" +:+ displayName att +:+ "](./attachments/" +:+ name att +:+ ") _("
    +:+ type att +:+ ")_" +:+ NL.

End Legacy.

(** ** Process start *)

Inductive BootLog := CreatedNotes | CreatedAttachments.

(** How the top-level statements before [new Telegraf] end: with
    [process.exit(1)], or with the directories that exist afterwards and
    the creations that were logged. *)
Inductive Boot :=
| Exits (code : nat)
| Runs (dirs : gset string) (logged : list BootLog).

Section Bootstrap.
Context `{Deployment}.

(** The check of the two environment variables and the two
    [if (!fs.existsSync(dir)) fs.mkdirSync(dir, { recursive: true })]. *)
Definition bootstrap (BOT_TOKEN allowed : option string) (dirs : gset string) : Boot :=
  if negb (JS.truthy BOT_TOKEN) || negb (JS.truthy allowed) then Exits 1
  else
    let '(dirs1, logged1) :=
      if bool_decide (NOTES_DIR ∈ dirs) then (dirs, [])
      else ({[ NOTES_DIR ]} ∪ dirs, [CreatedNotes]) in
    let '(dirs2, logged2) :=
      if bool_decide (ATTACHMENTS_DIR ∈ dirs1) then (dirs1, logged1)
      else ({[ ATTACHMENTS_DIR ]} ∪ dirs1, logged1 ++ [CreatedAttachments]) in
    Runs dirs2 logged2.

End Bootstrap.

(** ** Character classes of stored names *)

(** The characters a sanitized base name is made of. *)
Definition is_name_char (c : ascii) : bool :=
  JS.is_alnum c || Ascii.eqb c "_".


Definition not_slash (c : ascii) : bool := negb (Ascii.eqb c "/").


(** ** Settling the outstanding I/O *)

(** The events after which the loop can go on: every inbound update, a
    transfer that ends at a listener of the source, a fulfilled reply. *)
Definition handled (o : Transfer) : bool :=
  match o with
  | WriteStreamError => false
  | _ => true
  end.

Definition benign (ev : Event) : bool :=
  match ev with
  | Inbound _ => true
  | TransferSettled _ o => handled o
  | ReplySettled _ ok => ok
  end.

(** An upper bound on the settlements still needed to empty the queue: a
    message takes at most six transfers and one reply. *)
Definition work (s : State) : nat :=
  7 * length (messageQueue s) +
  match suspended s with
  | tk :: _ =>
      match await tk with
      | AwaitDownload _ _ rest => 2 + length rest
      | AwaitReply => 1
      | AwaitNever => 0
      end
  | [] => 0
  end.

Section Settling.
Context `{Deployment}.

(** The event loop delivers what the suspended task waits for: the
    outcome [o] of its transfer, or the fulfilment of its reply. *)
Definition settle (e : Env) (o : Transfer) (s : State) : State :=
  match suspended s with
  | tk :: _ =>
      match await tk with
      | AwaitDownload _ _ _ => step e (TransferSettled 0 o) s
      | AwaitReply => step e (ReplySettled 0 true) s
      | AwaitNever => s
      end
  | [] => s
  end.

Fixpoint settleAll (l : list (Env * Transfer)) (s : State) : State :=
  match l with
  | [] => s
  | (e, o) :: rest => settleAll rest (settle e o s)
  end.

End Settling.

(** ** Further quantities and invariants of the history *)

(** The tickets for which [ctx.reply] was called. *)
Fixpoint replyTickets (l : list Action) : list nat :=
  match l with
  | Replied t :: r => t :: replyTickets r
  | _ :: r => replyTickets r
  | [] => []
  end.

(** The tickets of the tasks whose record was not yet handed to the
    writer. *)
Definition unwritten (l : list Task) : list nat :=
  flat_map (fun tk => match await tk with AwaitReply => [] | _ => [ticket tk] end) l.

(** A record between its separator lines: LF [---] LF, the bolded
    timestamp and the rest, LF [---] LF, and the LF that [appendToNotes]
    adds. *)
Definition delimited (content : string) : Prop :=
  exists body,
    content = (NL +:+ "---" +:+ NL +:+ "**") +:+ body +:+ (NL +:+ "---" +:+ NL +:+ NL).

(** What holds of the locals of a suspended [processMessage]: the
    markdown starts with the separator and the opening of the bolded
    timestamp, and the entries pushed so far come from branches before
    the one that is waiting, in the order of the branches. *)
Definition taskShape (tk : Task) : Prop :=
  (exists rest, markdownContent tk = (NL +:+ "---" +:+ NL +:+ "**") +:+ rest) /\
  match await tk with
  | AwaitDownload f _ rest =>
      exists done, kinds = done ++ f_kind f :: rest /\
        map type (attachments tk) `sublist_of` map label done
  | _ => map type (attachments tk) `sublist_of` map label kinds
  end.

Definition recordsDelimited (l : list Action) : Prop :=
  Forall (fun a => match a with
                   | Appended _ _ content _ => delimited content
                   | _ => True
                   end) l.

(** Every suspended task and every record of the history is well
    shaped. *)
Definition shaped (s : State) : Prop :=
  Forall taskShape (suspended s) /\ recordsDelimited (trace s).

(** Every message taken into processing has had its record handed to
    the writer, except the one whose task has not got there yet (both
    lists newest first). *)
Definition accounted (s : State) : Prop :=
  map fst (starts (trace s)) = unwritten (suspended s) ++ appendTickets (trace s).

(** Every note file of [old] is still there in [new], its old content
    followed by what was appended since. *)
Definition grows (old new : gmap string string) : Prop :=
  forall file content, old !! file = Some content ->
    exists suffix, new !! file = Some (content +:+ suffix).

(** The state in which the loop can still go on: the queue invariant
    holds, and while the busy flag is set a task is suspended at a
    transfer or a reply. *)
Definition healthy (s : State) : Prop :=
  Inv s /\
  (isProcessing s = true ->
   exists tk, suspended s = [tk] /\ await tk <> AwaitNever).

(** Nothing of the pipeline has happened yet. *)
Definition pristine (s : State) : Prop :=
  messageQueue s = [] /\ isProcessing s = false /\ suspended s = [] /\
  trace s = [] /\ notes s = ∅ /\ attachmentFiles s = ∅.

Module Scenario.

Definition photos : IncomingMessage :=
  {| date := date Sample.empty;
     forward_from := None; forward_from_chat := None;
     forward_sender_name := None; text := None; caption := Some "view";
     photo := Some [ {| file_id := "AgACsmall" |}; {| file_id := "AgAClarge" |} ];
     document := None; video := None; audio := None;
     voice := None; video_note := None |}.

Definition strangersOnly : list (Env * Event) :=
  [(Sample.morning, Inbound (Sample.fromStranger (Sample.withText "hi")));
   (Sample.morning, TransferSettled 0 Finished);
   (Sample.later, Inbound {| from_id := None; message := Some (Sample.withText "hi") |});
   (Sample.later, Inbound {| from_id := Some 42%Z; message := None |});
   (Sample.later, ReplySettled 0 true)].

(** Two messages arrive, the first with a document. *)
Definition twoArrivals : list (Env * Event) :=
  [(Sample.morning, Inbound (Sample.fromOwner (Sample.withDocument Sample.planDocument)));
   (Sample.morning, Inbound (Sample.fromOwner (Sample.withText "two")))].

(** The settlements that follow: the link of the document is rejected,
    the replies are fulfilled. *)
Definition settlements : list (Env * Transfer) :=
  (Sample.later, LinkRejected) :: repeat (Sample.later, Finished) 12.

(** 4 November 2026, 07:02:03 UTC. *)
Definition nextDay : Env :=
  {| clock := 1793775723000%N; random36 := "0.9zzq81mc0x2";
     appendSucceeds := true |}.

End Scenario.

(** * Properties *)

(** ** Platform functions *)

Example extname_plan : JS.extname "plan v2.docx" = ".docx".
Proof. reflexivity. Qed.

Example basename_plan : JS.basename "plan v2.docx" ".docx" = "plan v2".
Proof. reflexivity. Qed.

Example extname_hidden : JS.extname ".bashrc" = "".
Proof. reflexivity. Qed.

Example extname_two_dots : JS.extname "a/b.tar.gz/" = ".gz".
Proof. reflexivity. Qed.

Example toString_zero : JS.toString 0 = "0".
Proof. reflexivity. Qed.

Example padStart_7 : JS.padStart 2 "0" (JS.toString 7) = "07".
Proof. reflexivity. Qed.

Example substring_short : JS.substring 2 8 "0.i" = "i".
Proof. reflexivity. Qed.

Lemma pad2_twoDigits (n : N) : (n < 100)%N -> pad2 n = Spec.twoDigits n.
Proof.
  intros Hn.
  assert (Hall : forallb (fun k => String.eqb (pad2 (N.of_nat k))
                                     (Spec.twoDigits (N.of_nat k)))
                         (seq 0 100) = true) by (vm_compute; reflexivity).
  rewrite forallb_forall in Hall.
  specialize (Hall (N.to_nat n)).
  rewrite N2Nat.id in Hall.
  apply String.eqb_eq, Hall, in_seq. lia.
Qed.

Lemma truthy_Some (s : string) : s <> "" -> JS.truthy (Some s) = true.
Proof.
  intros Hs. unfold JS.truthy.
  destruct (String.eqb_spec s ""); [contradiction | reflexivity].
Qed.

Lemma append_assoc (a b c : string) : (a +:+ b) +:+ c = a +:+ (b +:+ c).
Proof.
  induction a as [|x a IH]; [reflexivity |].
  exact (f_equal (String x) IH).
Qed.

Lemma append_empty_r (a : string) : a +:+ "" = a.
Proof.
  induction a as [|x a IH]; [reflexivity |].
  exact (f_equal (String x) IH).
Qed.

(** ** Record formatter *)

Section FormatterFacts.
Context `{Deployment}.

Lemma getTimestamp_zero_padded (e : Env) (u : option N) :
  JS.validDate (timestampDate e u) ->
  getTimestamp e u =
    Spec.twoDigits (JS.getHours (timestampDate e u)) +:+ ":" +:+
    Spec.twoDigits (JS.getMinutes (timestampDate e u)) +:+ ":" +:+
    Spec.twoDigits (JS.getSeconds (timestampDate e u)).
Proof.
  intros (Hh & Hm & Hs & _). unfold getTimestamp.
  rewrite !pad2_twoDigits by lia. reflexivity.
Qed.

Lemma nextFetch_noMedia (m : IncomingMessage) :
  Spec.noMedia m -> nextFetch m kinds = None.
Proof.
  intros (Hp & Hd & Hv & Ha & Hvo & Hn).
  unfold kinds, nextFetch, fetchOf.
  now rewrite Hp, Hd, Hv, Ha, Hvo, Hn.
Qed.

Lemma formatForwardInfo_noProvenance (m : IncomingMessage) :
  Spec.noProvenance m -> formatForwardInfo m = "".
Proof.
  intros (Hu & Hc & Hn). unfold formatForwardInfo.
  now rewrite Hu, Hc, Hn.
Qed.

(** C5: a message with text only and no forward provenance is rendered as
    exactly LF [---] LF [**HH:MM:SS**] LF LF text LF LF [---] LF, with the
    clock fields of the record's date zero-padded to two digits: this is
    the fragment [processMessage] holds when it calls [ctx.reply], and the
    fragment it handed to [appendToNotes] (which writes it followed by one
    more LF); no attachment is fetched. *)
Theorem text_only_fragment (e : Env) (t : nat) (m : IncomingMessage)
    (txt : string) (s : State) :
  text m = Some txt -> txt <> "" ->
  Spec.noProvenance m -> Spec.noMedia m ->
  JS.validDate (timestampDate e (date m)) ->
  let d := timestampDate e (date m) in
  let fragment :=
    NL +:+ "---" +:+ NL +:+ "**" +:+
    Spec.twoDigits (JS.getHours d) +:+ ":" +:+ Spec.twoDigits (JS.getMinutes d)
      +:+ ":" +:+ Spec.twoDigits (JS.getSeconds d) +:+
    "**" +:+ NL +:+ NL +:+ txt +:+ NL +:+ NL +:+ "---" +:+ NL in
  suspended (processMessage e t m s) =
    suspended s ++ [{| ticket := t; task_message := m;
                       markdownContent := fragment; attachments := [];
                       await := AwaitReply |}] /\
  trace (processMessage e t m s) =
    Replied t :: Appended t (getDayNotesFile e) (fragment +:+ NL) (appendSucceeds e)
      :: Started t m :: trace s.
Proof.
  intros Htxt Hne Hprov Hmedia Hdate d fragment.
  assert (Hfrag : renderTail (renderHead e m) [] = fragment).
  { unfold renderTail, renderHead, renderBody, renderAttachments.
    rewrite Htxt, (truthy_Some _ Hne), (formatForwardInfo_noProvenance _ Hprov).
    rewrite (getTimestamp_zero_padded _ _ Hdate). simpl JS.show.
    subst fragment d. rewrite !append_assoc. reflexivity. }
  unfold processMessage, proceed.
  rewrite (nextFetch_noMedia _ Hmedia), Hfrag.
  unfold appendToNotes. destruct (appendSucceeds e); split; reflexivity.
Qed.

End FormatterFacts.

(** ** Provenance annotation *)

Section ForwardFacts.
Context `{Deployment}.

(** C6: the annotation is [ - Forwarded from X], resolved with precedence
    named user, then named chat, then free-text sender name; for a named
    user X is [@username] when the username is present, else the first
    name; and [processMessage] places the annotation right after the
    bolded timestamp of the record. *)
Theorem forward_annotation (e : Env) (t : nat) (m : IncomingMessage) (s : State) :
  (forall u n, forward_from m = Some u -> username u = Some n -> n <> "" ->
     formatForwardInfo m = " - Forwarded from @" +:+ n) /\
  (forall u f, forward_from m = Some u -> JS.truthy (username u) = false ->
     first_name u = Some f ->
     formatForwardInfo m = " - Forwarded from " +:+ f) /\
  (forall c x, forward_from m = None -> forward_from_chat m = Some c ->
     title c = Some x ->
     formatForwardInfo m = " - Forwarded from " +:+ x) /\
  (forall n, forward_from m = None -> forward_from_chat m = None ->
     forward_sender_name m = Some n -> n <> "" ->
     formatForwardInfo m = " - Forwarded from " +:+ n) /\
  (exists tk rest,
     suspended (processMessage e t m s) = suspended s ++ [tk] /\
     markdownContent tk =
       (NL +:+ "---" +:+ NL +:+ "**" +:+ getTimestamp e (date m) +:+ "**"
          +:+ formatForwardInfo m +:+ NL +:+ NL) +:+ rest).
Proof.
  repeat split.
  - intros u n Hu Hn Hne. unfold formatForwardInfo.
    rewrite Hu, Hn, (truthy_Some _ Hne). reflexivity.
  - intros u f Hu Hn Hf. unfold formatForwardInfo.
    rewrite Hu, Hn, Hf. reflexivity.
  - intros c x Hu Hc Hx. unfold formatForwardInfo.
    rewrite Hu, Hc, Hx. reflexivity.
  - intros n Hu Hc Hn Hne. unfold formatForwardInfo.
    rewrite Hu, Hc, Hn, (truthy_Some _ Hne). reflexivity.
  - unfold processMessage, proceed, appendToNotes.
    destruct (nextFetch m kinds) as [[f ks]|]; [|destruct (appendSucceeds e)];
      eexists; eexists; (split; [reflexivity|]);
      cbn [markdownContent]; unfold renderTail, renderHead;
      rewrite !append_assoc; reflexivity.
Qed.

End ForwardFacts.

(** ** The authorization gate *)

Section GateFacts.
Context `{Deployment}.

(** C7: an event whose sender identity is absent or differs from the
    configured one leaves the queue, the busy flag, the suspended tasks,
    the note files, the attachment files and the history (no fetch, no
    append, no reply) as they were; only one diagnostic is logged. *)
Theorem unauthorized_dropped (e : Env) (ctx : MessageContext) (s : State) :
  Spec.senderId ctx <> Some ALLOWED_USER_ID ->
  let s' := step e (Inbound ctx) s in
  messageQueue s' = messageQueue s /\ isProcessing s' = isProcessing s /\
  suspended s' = suspended s /\ pushed s' = pushed s /\
  notes s' = notes s /\ attachmentFiles s' = attachmentFiles s /\
  trace s' = trace s /\
  exists d, console s' = d :: console s /\
    (d = RejectedNoSender \/ exists userId, d = RejectedUnauthorized userId).
Proof.
  intros Hid. cbn [step]. unfold onMessage, Spec.senderId in *.
  destruct (from_id ctx) as [id|]; cbn in Hid.
  - destruct (String.eqb_spec (JS.toStringZ id) "").
    + repeat split; eauto.
    + destruct (String.eqb_spec (JS.toStringZ id) ALLOWED_USER_ID) as [Heq|Hne];
        [congruence|].
      cbn [negb]. repeat split; eauto.
  - repeat split; eauto.
Qed.

End GateFacts.

(** ** Stored file names *)

Lemma digits_of_uint (d : Decimal.uint) :
  JS.all_chars JS.is_digit (NilEmpty.string_of_uint d) = true.
Proof. induction d; simpl; auto. Qed.

Lemma toString_digits (n : N) : JS.all_chars JS.is_digit (JS.toString n) = true.
Proof.
  unfold JS.toString, NilZero.string_of_uint.
  destruct (N.to_uint n) eqn:E; try apply digits_of_uint. reflexivity.
Qed.

Lemma toString_nonempty (n : N) : JS.toString n <> "".
Proof.
  unfold JS.toString, NilZero.string_of_uint.
  destruct (N.to_uint n); discriminate.
Qed.

Lemma substring_length_le (a n : nat) (s : string) :
  String.length (String.substring a n s) <= n.
Proof.
  revert a n. induction s as [|c s IH]; intros a n.
  - destruct a, n; simpl; lia.
  - destruct a as [|a]; [destruct n as [|n]|]; simpl; [lia| |apply IH].
    specialize (IH 0 n). lia.
Qed.

Lemma span_digits (ds rest : string) :
  JS.all_chars JS.is_digit ds = true ->
  Spec.span JS.is_digit (ds +:+ String "_" rest) = (ds, String "_" rest).
Proof.
  induction ds as [|c ds IH]; intros Hd.
  - reflexivity.
  - cbn [JS.all_chars] in Hd. apply andb_prop in Hd as [Hc Hds].
    change (String c ds +:+ String "_" rest) with (String c (ds +:+ String "_" rest)).
    cbn [Spec.span]. rewrite Hc, (IH Hds). reflexivity.
Qed.

Lemma substring_prefix (tok rest : string) :
  String.substring 0 (String.length tok) (tok +:+ rest) = tok.
Proof.
  induction tok as [|c tok IH]; [destruct rest; reflexivity|].
  change (String c tok +:+ rest) with (String c (tok +:+ rest)).
  cbn [String.length String.substring]. now rewrite IH.
Qed.

Lemma substring_suffix (tok rest : string) :
  String.substring (String.length tok)
    (String.length (tok +:+ rest) - String.length tok) (tok +:+ rest) = rest.
Proof.
  induction tok as [|c tok IH].
  - change ("" +:+ rest) with rest. cbn [String.length].
    rewrite Nat.sub_0_r. clear. induction rest as [|c r IH]; [reflexivity|].
    cbn [String.length String.substring]. now rewrite IH.
  - change (String c tok +:+ rest) with (String c (tok +:+ rest)).
    cbn [String.length String.substring]. exact IH.
Qed.

Lemma matchesStored_intro (n : nat) (ds tok tail : string) :
  ds <> "" -> JS.all_chars JS.is_digit ds = true ->
  String.length tok = n -> JS.all_chars Spec.is_token_char tok = true ->
  Spec.matchesStored n tail (ds +:+ "_" +:+ tok +:+ "_" +:+ tail) = true.
Proof.
  intros Hne Hds Hlen Htok. unfold Spec.matchesStored.
  change (ds +:+ "_" +:+ tok +:+ "_" +:+ tail)
    with (ds +:+ String "_" (tok +:+ "_" +:+ tail)).
  rewrite (span_digits _ _ Hds). subst n.
  rewrite substring_prefix, substring_suffix, Nat.eqb_refl, Htok, String.eqb_refl.
  destruct (String.eqb_spec ds ""); [contradiction | reflexivity].
Qed.

(** C3, as the code has it: for a document declared as [plan v2.docx] the
    stored name is the decimal clock reading in milliseconds, an
    underscore, the characters 2 to 7 of the base-36 rendering of the
    random number (at most six characters), an underscore, and
    [plan_v2.docx]; it matches [^\d+_[a-z0-9]{6}_plan_v2\.docx$] whenever
    that rendering has at least six digits after the point. *)
Theorem plan_v2_stored_name (e : Env) (m : IncomingMessage) (d : NamedFile) :
  document m = Some d -> file_name d = Some "plan v2.docx" ->
  exists f, fetchOf m Document = Some f /\
    let stored := generateFileName e (f_baseName f) (f_extension f) in
    let token := JS.substring 2 8 (random36 e) in
    stored = JS.toString (clock e) +:+ "_" +:+ token +:+ "_" +:+ "plan_v2.docx" /\
    JS.toString (clock e) <> "" /\
    JS.all_chars JS.is_digit (JS.toString (clock e)) = true /\
    String.length token <= 6 /\
    (Spec.fractionDigits 6 (random36 e) ->
       Spec.matchesStored 6 "plan_v2.docx" stored = true).
Proof.
  intros Hdoc Hname. unfold fetchOf. rewrite Hdoc, Hname.
  eexists; split; [reflexivity|]. cbn zeta.
  assert (Hstored :
    generateFileName e (JS.basename "plan v2.docx" (JS.extname "plan v2.docx"))
      (JS.orElse (Some (JS.extname "plan v2.docx")) ".bin")
    = JS.toString (clock e) +:+ "_" +:+ JS.substring 2 8 (random36 e)
        +:+ "_" +:+ "plan_v2.docx") by reflexivity.
  cbn [f_baseName f_extension JS.truthy JS.show String.eqb Ascii.eqb Bool.eqb negb].
  split; [exact Hstored|]. split; [apply toString_nonempty|].
  split; [apply toString_digits|]. split; [apply substring_length_le|].
  intros (_ & Hlen & Hchars). rewrite Hstored.
  apply matchesStored_intro; auto using toString_nonempty, toString_digits.
Qed.

(** C3, as stated, fails when the random number is one half: its base-36
    rendering is [0.i], the token is the single character [i], and the
    stored name does not match the pattern. *)
Lemma short_random_token :
  exists f, fetchOf (Sample.withDocument Sample.planDocument) Document = Some f /\
    generateFileName Sample.morningHalf (f_baseName f) (f_extension f)
      = "1793689323000_i_plan_v2.docx" /\
    Spec.matchesStored 6 "plan_v2.docx"
      (generateFileName Sample.morningHalf (f_baseName f) (f_extension f)) = false.
Proof. eexists; split; [reflexivity|]. split; vm_compute; reflexivity. Qed.

Lemma plan_v2_stored_name_witness :
  Spec.matchesStored 6 "plan_v2.docx" "1793689323000_4fzyo8_plan_v2.docx" = true.
Proof.
  destruct (plan_v2_stored_name Sample.morning
              (Sample.withDocument Sample.planDocument) Sample.planDocument
              eq_refl eq_refl) as (f & Hf & _ & _ & _ & _ & Hmatch).
  injection Hf as <-. apply Hmatch.
  repeat split; reflexivity.
Defined.

(** ** Display names *)

Lemma orElse_Some (s b : string) : s <> "" -> JS.orElse (Some s) b = s.
Proof.
  intros Hs. unfold JS.orElse.
  destruct (String.eqb_spec s ""); [contradiction | reflexivity].
Qed.

Lemma truthy_orElse (a : option string) (b : string) :
  JS.truthy a = false -> JS.orElse a b = b.
Proof.
  destruct a as [s|]; [|reflexivity]. cbn.
  destruct (String.eqb s ""); [reflexivity | discriminate].
Qed.

Lemma truthy_declared (a : option string) :
  JS.truthy a = true -> exists s, a = Some s /\ s <> "".
Proof.
  destruct a as [s|]; [|discriminate]. cbn.
  destruct (String.eqb_spec s ""); [discriminate|]. eauto.
Qed.

(** C4, as the code has it: the entry pushed for a fetched attachment is
    displayed under the declared filename when the source provided one;
    otherwise a document is displayed as [document], an audio as [audio],
    and a photo, video, voice clip or video note under the generated
    stored filename. That display name is the text of the link or image
    embed that is rendered for the entry. *)
Theorem display_name (m : IncomingMessage) (k : Kind) (f : Fetch)
    (saved : string) (atts : list AttachmentEntry) :
  fetchOf m k = Some f -> saved <> "" ->
  exists att,
    pushSaved f (Some saved) atts = atts ++ [att] /\
    name att = saved /\
    displayName att =
      match Spec.declaredName m k with
      | Some declared => declared
      | None =>
          match k with
          | Document => "document"
          | Audio => "audio"
          | _ => saved
          end
      end /\
    renderAttachment att =
      (if isImage att then "![" else "- [") +:+ displayName att
        +:+ "](../attachments/" +:+ saved +:+ ")"
        +:+ (if isImage att then NL else " _(" +:+ label k +:+ ")_" +:+ NL).
Proof.
  intros Hf Hsaved. unfold pushSaved. rewrite (truthy_Some _ Hsaved).
  eexists; split; [reflexivity|]. split; [reflexivity|].
  assert (Hk : f_kind f = k).
  { destruct k; cbn in Hf;
      repeat match type of Hf with
             | match ?x with _ => _ end = _ => destruct x; try discriminate
             end; injection Hf as <-; reflexivity. }
  split.
  - clear Hk. unfold displayName. cbn [originalName name JS.show].
    destruct k; cbn in Hf |- *;
      repeat match type of Hf with
             | match ?x with _ => _ end = Some _ => destruct x eqn:?; try discriminate
             end; injection Hf as <-; cbn [f_originalName plain];
      try reflexivity.
    + destruct (JS.truthy (file_name n)) eqn:Ht.
      * destruct (truthy_declared _ Ht) as (s & Hs1 & Hs).
        rewrite Hs1, !(orElse_Some s _ Hs). reflexivity.
      * rewrite (truthy_orElse _ _ Ht). reflexivity.
    + destruct (JS.truthy (file_name n)) eqn:Ht.
      * destruct (truthy_declared _ Ht) as (s & Hs1 & Hs).
        rewrite Hs1, !(orElse_Some s _ Hs). reflexivity.
      * rewrite (truthy_orElse _ _ Ht). reflexivity.
  - unfold renderAttachment. cbn [name type JS.show]. rewrite Hk.
    destruct (isImage _); rewrite ?append_assoc; reflexivity.
Qed.

Lemma display_name_witness :
  exists att,
    pushSaved (plain Voice {| file_id := "AwACAgIAAx0" |} "voice" ".ogg")
      (Some "1793689323000_4fzyo8_voice.ogg") [] = [att] /\
    displayName att = "1793689323000_4fzyo8_voice.ogg".
Proof.
  destruct (display_name
              {| date := None; forward_from := None; forward_from_chat := None;
                 forward_sender_name := None; text := None; caption := None;
                 photo := None; document := None; video := None; audio := None;
                 voice := Some {| file_id := "AwACAgIAAx0" |}; video_note := None |}
              Voice _ "1793689323000_4fzyo8_voice.ogg" [] eq_refl
              ltac:(discriminate)) as (att & Hpush & _ & Hdisp & _).
  exists att. split; [exact Hpush | exact Hdisp].
Defined.

(** C4, as stated, fails for a document without declared filename: the
    entry is displayed as [document], not under its stored filename. *)
Lemma unnamed_document_display :
  Spec.declaredName (Sample.withDocument Sample.unnamedDocument) Document = None /\
  exists tk att,
    suspended (@run utcHost Sample.fetchUnnamed initial) = [tk] /\
    attachments tk = [att] /\
    name att = "1793689323000_4fzyo8_document.bin" /\
    displayName att = "document" /\
    displayName att <> name att.
Proof.
  split; [reflexivity|]. eexists; eexists.
  split; [vm_compute; reflexivity|]. split; [reflexivity|].
  split; [reflexivity|]. split; [reflexivity|]. discriminate.
Qed.

(** ** The day file *)

Section DayFileFacts.
Context `{Deployment}.

Lemma month_name (i : N) :
  (i < 12)%N ->
  exists mon, MONTH_NAMES !! N.to_nat i = Some mon /\
    String.length mon = 3 /\ JS.all_chars JS.is_lower mon = true.
Proof.
  intros Hi. assert (Hn : N.to_nat i < 12) by lia.
  revert Hn. generalize (N.to_nat i) as n. intros n Hn.
  do 12 (destruct n as [|n]; [eexists; repeat split; reflexivity|]). lia.
Qed.

Lemma notes_appendToNotes (e : Env) (t : nat) (c : string) (s : State) :
  appendSucceeds e = true ->
  notes (appendToNotes e t c s) =
    appendFile (getDayNotesFile e) (c +:+ NL) (notes s).
Proof. intros He. unfold appendToNotes. now rewrite He. Qed.

Lemma notes_proceed_last (e : Env) (t : nat) (m : IncomingMessage)
    (md : string) (atts : list AttachmentEntry) (s : State) :
  appendSucceeds e = true ->
  notes (proceed e t m md atts [] s) =
    appendFile (getDayNotesFile e) (renderTail md atts +:+ NL) (notes s).
Proof. intros He. unfold proceed. cbn. now apply notes_appendToNotes. Qed.

(** C10: the day file is determined by the day of the month and the
    month that the clock shows when the record is written: two readings
    on the same calendar day give the same path, of the form
    [NOTES_DIR/{day}-{mon}.md] with a month name of three lower-case
    letters; and the records of two messages written at such readings,
    whatever the messages (and their own dates) are, end up one after
    the other in that one file. *)
Theorem day_file_by_calendar_day (e1 e2 : Env) (t1 t2 : nat)
    (m1 m2 : IncomingMessage) (md1 md2 : string)
    (atts1 atts2 : list AttachmentEntry) (s : State) :
  JS.getDate (newDate (clock e1)) = JS.getDate (newDate (clock e2)) ->
  JS.getMonth (newDate (clock e1)) = JS.getMonth (newDate (clock e2)) ->
  (JS.getMonth (newDate (clock e1)) < 12)%N ->
  appendSucceeds e1 = true -> appendSucceeds e2 = true ->
  getDayNotesFile e1 = getDayNotesFile e2 /\
  (exists mon,
     MONTH_NAMES !! N.to_nat (JS.getMonth (newDate (clock e1))) = Some mon /\
     String.length mon = 3 /\ JS.all_chars JS.is_lower mon = true /\
     getDayNotesFile e1 =
       NOTES_DIR +:+ "/" +:+ JS.toString (JS.getDate (newDate (clock e1)))
         +:+ "-" +:+ mon +:+ ".md") /\
  notes (proceed e2 t2 m2 md2 atts2 [] (proceed e1 t1 m1 md1 atts1 [] s))
    !! getDayNotesFile e1 =
    Some (default "" (notes s !! getDayNotesFile e1)
            +:+ (renderTail md1 atts1 +:+ NL) +:+ (renderTail md2 atts2 +:+ NL)).
Proof.
  intros Hday Hmonth Hrange He1 He2.
  assert (Hsame : getDayNotesFile e1 = getDayNotesFile e2).
  { unfold getDayNotesFile. cbn zeta. now rewrite Hday, Hmonth. }
  split; [exact Hsame|]. split.
  - destruct (month_name _ Hrange) as (mon & Hmon & Hlen & Hlow).
    exists mon. repeat split; auto.
    unfold getDayNotesFile, path_join. cbn zeta. rewrite Hmon.
    cbn [JS.show]. rewrite !append_assoc. reflexivity.
  - rewrite (notes_proceed_last e2) by assumption.
    rewrite (notes_proceed_last e1) by assumption.
    rewrite <- Hsame. unfold appendFile.
    rewrite !lookup_insert_eq. cbn [default from_option id].
    now rewrite append_assoc.
Qed.

End DayFileFacts.

Lemma day_file_by_calendar_day_witness :
  @getDayNotesFile utcHost Sample.morning = "/srv/bot/notes/3-nov.md" /\
  @getDayNotesFile utcHost Sample.later = "/srv/bot/notes/3-nov.md".
Proof.
  destruct (@day_file_by_calendar_day utcHost Sample.morning Sample.later 0 1
              (Sample.withText "one") (Sample.withText "two") "" "" [] [] initial
              eq_refl eq_refl eq_refl eq_refl eq_refl) as (Hsame & _ & _).
  split; [reflexivity|]. rewrite <- Hsame. reflexivity.
Defined.

(** ** The dispatch queue *)

Lemma appendTickets_bound (n : nat) (l : list Action) :
  Forall (fun a => ticketOf a < n) l -> Forall (fun t => t < n) (appendTickets l).
Proof.
  induction 1 as [|a l Ha _ IH]; [constructor|].
  destruct a; cbn in *; auto.
Qed.

Lemma Forall_lt_le (n : nat) (l : list Action) :
  Forall (fun a => ticketOf a < S n) l -> Forall (fun a => ticketOf a <= n) l.
Proof. intros Hl. eapply Forall_impl; [exact Hl|]. cbn. intros a Ha. lia. Qed.

Lemma shifted_push (m : IncomingMessage) (s : State) :
  length (messageQueue s) <= pushed s -> shifted (push m s) = shifted s.
Proof. unfold shifted. cbn. rewrite length_app. cbn. lia. Qed.

Lemma no_task_when_idle (s : State) :
  Inv s -> isProcessing s = false -> suspended s = [].
Proof.
  intros HI Hidle. destruct (suspended s) as [|tk l] eqn:E; [reflexivity|].
  destruct (inv_busy s HI tk) as [Hbusy _]; [rewrite E; left | congruence].
Qed.

Lemma only_task (s : State) (i : nat) (tk : Task) :
  Inv s -> suspended s !! i = Some tk -> suspended s = [tk] /\ i = 0.
Proof.
  intros HI Hi. pose proof (inv_one s HI) as Hone.
  destruct (suspended s) as [|x [|y l]]; cbn in *; try lia; [discriminate|].
  destruct i; cbn in Hi; [injection Hi as ->; auto | discriminate].
Qed.

Section QueueFacts.
Context `{Deployment}.

(** The state in which a task for ticket [t] may run on: no other task is
    suspended, the loop is marked busy, [t] is the ticket shifted last and
    nothing was appended for it yet. *)
Lemma Inv_proceed (e : Env) (t : nat) (m : IncomingMessage) (md : string)
    (atts : list AttachmentEntry) (ks : list Kind) (s : State) :
  Inv s -> suspended s = [] -> isProcessing s = true -> S t = shifted s ->
  Forall (fun t' => t' < t) (appendTickets (trace s)) ->
  Inv (proceed e t m md atts ks s).
Proof.
  intros [Hone Hbusy Hidle Hq Hlen Htr Hsort Happ Hpend] Hnone Hproc Ht Hfresh.
  assert (Hle : Forall (fun a => ticketOf a <= t) (trace s)).
  { apply Forall_lt_le. now rewrite Ht. }
  unfold proceed.
  destruct (nextFetch m ks) as [[f rest]|];
    [|unfold appendToNotes; destruct (appendSucceeds e)];
    (constructor; unfold shifted in *; cbn; rewrite ?Hnone; cbn;
     [ lia
     | intros tk ->%list_elem_of_singleton; cbn; auto
     | congruence
     | assumption
     | assumption
     | repeat (constructor; [cbn; lia|]); assumption
     | repeat first [ exact Hsort | exact Hle | apply SSorted_cons
                    | apply Forall_cons_2; [cbn; lia|] ]
     | try (constructor; assumption); assumption
     | intros tk ->%list_elem_of_singleton; cbn; intros Hne; try congruence; assumption ]).
Qed.

Lemma Inv_drain (e : Env) (s : State) :
  Inv s -> suspended s = [] -> isProcessing s = true -> Inv (drain e s).
Proof.
  intros HI Hnone Hproc. pose proof HI as [Hone Hbusy Hidle Hq Hlen Htr Hsort Happ Hpend].
  unfold shifted in Hbusy, Hq, Htr.
  unfold drain. destruct (messageQueue s) as [|[t m] rest] eqn:Eq.
  - constructor; unfold shifted in *; cbn; rewrite ?Eq, ?Hnone in *; cbn in *; auto.
    intros tk Htk. inversion Htk.
  - unfold shifted in *. cbn [length map fst seq] in Hq, Hlen, Htr.
    injection Hq as Ht Hq.
    unfold processMessage. apply Inv_proceed; cbn; auto.
    + constructor; unfold shifted; cbn; rewrite ?Hnone; cbn.
      * lia.
      * intros tk Htk. inversion Htk.
      * congruence.
      * rewrite Hq. f_equal. lia.
      * lia.
      * constructor; [cbn; lia|]. eapply Forall_impl; [exact Htr|]. cbn. intros; lia.
      * constructor; [assumption|]. eapply Forall_impl; [exact Htr|]. cbn. intros; lia.
      * assumption.
      * intros tk Htk. inversion Htk.
    + unfold shifted. cbn. lia.
    + apply appendTickets_bound. rewrite Ht. exact Htr.
Qed.

Lemma Inv_log (d : Diagnostic) (s : State) : Inv s -> Inv (log d s).
Proof. intros []. constructor; assumption. Qed.

Lemma Inv_set_attachmentFiles (a : gset string) (s : State) :
  Inv s -> Inv (set_attachmentFiles a s).
Proof. intros []. constructor; assumption. Qed.

Lemma Inv_onMessage (e : Env) (ctx : MessageContext) (s : State) :
  Inv s -> Inv (onMessage e ctx s).
Proof.
  intros HI. unfold onMessage.
  destruct (from_id ctx) as [id|]; [|now apply Inv_log].
  destruct (String.eqb _ ""); [now apply Inv_log|].
  destruct (negb _); [now apply Inv_log|].
  destruct (message ctx) as [m|]; [|now apply Inv_log].
  pose proof HI as [Hone Hbusy Hidle Hq Hlen Htr Hsort Happ Hpend].
  assert (Hqueue : map fst (messageQueue (push m s)) =
                   seq (shifted s) (length (messageQueue (push m s)))).
  { cbn. rewrite map_app, length_app, Hq. cbn.
    rewrite seq_app. cbn. do 2 f_equal. unfold shifted. lia. }
  unfold processQueue. cbn [isProcessing push].
  destruct (isProcessing s) eqn:Hproc; cbn [orb].
  - constructor; rewrite ?shifted_push by assumption; cbn; auto.
    + intros tk Htk. split; [exact Hproc | now apply Hbusy].
    + congruence.
    + rewrite length_app. cbn. lia.
  - rewrite bool_decide_eq_false_2 by (cbn; now destruct (messageQueue s)).
    pose proof (no_task_when_idle s HI Hproc) as Hnone.
    apply Inv_drain; [|exact Hnone|reflexivity].
    constructor;
      change (shifted (set_isProcessing true (push m s))) with (shifted (push m s));
      rewrite ?shifted_push by assumption; cbn; auto.
    + rewrite Hnone. intros tk Htk. inversion Htk.
    + congruence.
    + rewrite length_app. cbn. lia.
Qed.

Lemma Inv_step (e : Env) (ev : Event) (s : State) : Inv s -> Inv (step e ev s).
Proof.
  intros HI. destruct ev as [ctx|i o|i ok]; cbn [step].
  - now apply Inv_onMessage.
  - destruct (suspended s !! i) as [tk|] eqn:Hi; [|assumption].
    destruct (only_task s i tk HI Hi) as [Hs ->].
    destruct (await tk) as [f fileName rest| |] eqn:Haw; try assumption.
    pose proof HI as [Hone Hbusy Hidle Hq Hlen Htr Hsort Happ Hpend].
    destruct (Hbusy tk) as [Hproc Ht]; [rewrite Hs; left|].
    assert (Hfresh : Forall (fun t' => t' < ticket tk) (appendTickets (trace s))).
    { apply Hpend; [rewrite Hs; left | congruence]. }
    assert (HI0 : Inv (set_suspended (delete 0 (suspended s)) s)).
    { constructor; cbn; rewrite ?Hs; cbn; auto; intros x Hx; inversion Hx. }
    destruct o; cbn [downloadFile].
    + apply Inv_proceed;
        [now apply Inv_log | cbn; now rewrite Hs | exact Hproc | exact Ht | exact Hfresh].
    + apply Inv_proceed;
        [now apply Inv_log, Inv_set_attachmentFiles
        | cbn; now rewrite Hs | exact Hproc | exact Ht | exact Hfresh].
    + apply Inv_proceed;
        [now apply Inv_set_attachmentFiles
        | cbn; now rewrite Hs | exact Hproc | exact Ht | exact Hfresh].
    + constructor; unfold shifted in *; cbn; rewrite ?Hs; cbn; auto.
      * intros x ->%list_elem_of_singleton. cbn. auto.
      * intros x ->%list_elem_of_singleton. cbn. auto.
  - destruct (suspended s !! i) as [tk|] eqn:Hi; [|assumption].
    destruct (only_task s i tk HI Hi) as [Hs ->].
    destruct (await tk) eqn:Haw; try assumption.
    pose proof HI as [Hone Hbusy Hidle Hq Hlen Htr Hsort Happ Hpend].
    destruct (Hbusy tk) as [Hproc Ht]; [rewrite Hs; left|].
    assert (HI0 : Inv (set_suspended (delete 0 (suspended s)) s)).
    { constructor; cbn; rewrite ?Hs; cbn; auto; intros x Hx; inversion Hx. }
    destruct ok; [|exact HI0].
    apply Inv_drain; [exact HI0 | cbn; now rewrite Hs | exact Hproc].
Qed.

Lemma Inv_initial : Inv initial.
Proof.
  constructor; cbn; auto; try (constructor; fail);
    intros tk Htk; inversion Htk.
Qed.

Lemma Inv_run (sched : list (Env * Event)) (s : State) :
  Inv s -> Inv (run sched s).
Proof.
  revert s. induction sched as [|[e ev] rest IH]; intros s HI; cbn [run]; auto.
  apply IH, Inv_step, HI.
Qed.

End QueueFacts.

(** *** Histories in the order things happened *)

Lemma StronglySorted_rev {A : Type} (R : A -> A -> Prop) (l : list A) :
  StronglySorted R l -> StronglySorted (fun a b => R b a) (rev l).
Proof.
  induction 1 as [|a l Hl IH Ha]; [constructor|].
  cbn [rev]. apply StronglySorted_app. split; [|split].
  - intros x1 x2 Hx1 ->%list_elem_of_singleton.
    rewrite Forall_forall in Ha. apply Ha.
    apply list_elem_of_In, in_rev, list_elem_of_In, Hx1.
  - exact IH.
  - repeat constructor.
Qed.

Lemma appendTickets_app (l1 l2 : list Action) :
  appendTickets (l1 ++ l2) = appendTickets l1 ++ appendTickets l2.
Proof.
  induction l1 as [|a l1 IH]; [reflexivity|].
  destruct a; cbn; now rewrite IH.
Qed.

Lemma appendTickets_rev (l : list Action) :
  appendTickets (rev l) = rev (appendTickets l).
Proof.
  induction l as [|a l IH]; [reflexivity|].
  cbn [rev]. rewrite appendTickets_app, IH.
  destruct a; cbn; now rewrite ?app_nil_r.
Qed.

Lemma starts_app (l1 l2 : list Action) :
  starts (l1 ++ l2) = starts l1 ++ starts l2.
Proof.
  induction l1 as [|a l1 IH]; [reflexivity|].
  destruct a; cbn; now rewrite IH.
Qed.

Lemma toStringZ_nonempty (z : Z) : JS.toStringZ z <> "".
Proof.
  unfold JS.toStringZ, NilZero.string_of_int, NilZero.string_of_uint.
  destruct (Z.to_int z) as [d|d]; [|discriminate].
  destruct d; discriminate.
Qed.

Section FifoFacts.
Context `{Deployment}.

Lemma accepted_cons (n : nat) (x : Env * Event) (rest : list (Env * Event)) :
  accepted n (x :: rest) =
    accepted n [x] ++ accepted (n + length (accepted n [x])) rest.
Proof.
  destruct x as [e [ctx|i o|i ok]]; cbn [accepted];
    rewrite ?Nat.add_0_r; try reflexivity.
  destruct (message ctx); [|now rewrite Nat.add_0_r].
  destruct (bool_decide _); cbn; rewrite ?Nat.add_0_r, ?Nat.add_1_r; reflexivity.
Qed.

Lemma fifo_proceed (e : Env) (t : nat) (m : IncomingMessage) (md : string)
    (atts : list AttachmentEntry) (ks : list Kind) (s : State) :
  starts (history (proceed e t m md atts ks s)) = starts (history s) /\
  messageQueue (proceed e t m md atts ks s) = messageQueue s /\
  pushed (proceed e t m md atts ks s) = pushed s.
Proof.
  unfold proceed, history, appendToNotes.
  destruct (nextFetch m ks) as [[f rest]|]; [|destruct (appendSucceeds e)];
    cbn; rewrite ?starts_app; cbn; rewrite ?app_nil_r; auto.
Qed.

Lemma fifo_drain (e : Env) (s : State) :
  starts (history (drain e s)) ++ messageQueue (drain e s) =
    starts (history s) ++ messageQueue s /\
  pushed (drain e s) = pushed s.
Proof.
  unfold drain. destruct (messageQueue s) as [|[t m] rest] eqn:Eq.
  - cbn. rewrite Eq. auto.
  - unfold processMessage.
    destruct (fifo_proceed e t m (renderHead e m) [] kinds
                (record (Started t m) (set_queue rest s))) as (-> & -> & ->).
    unfold history. cbn. rewrite starts_app. cbn.
    rewrite <- app_assoc. auto.
Qed.

Lemma fifo_step (e : Env) (ev : Event) (s : State) :
  starts (history (step e ev s)) ++ messageQueue (step e ev s) =
    starts (history s) ++ messageQueue s ++ accepted (pushed s) [(e, ev)] /\
  pushed (step e ev s) = pushed s + length (accepted (pushed s) [(e, ev)]).
Proof.
  destruct ev as [ctx|i o|i ok]; cbn [step accepted].
  - unfold onMessage, Spec.senderId.
    destruct (from_id ctx) as [id|]; cbn [fmap option_fmap option_map].
    + destruct (String.eqb_spec (JS.toStringZ id) "") as [E|_];
        [now apply toStringZ_nonempty in E|].
      destruct (String.eqb_spec (JS.toStringZ id) ALLOWED_USER_ID) as [E|E]; cbn [negb].
      * destruct (message ctx) as [m|]; [|cbn; rewrite !app_nil_r; auto].
        rewrite bool_decide_eq_true_2 by congruence.
        unfold processQueue. cbn [isProcessing push].
        destruct (isProcessing s); cbn [orb].
        -- cbn. rewrite Nat.add_1_r. auto.
        -- rewrite bool_decide_eq_false_2 by (cbn; now destruct (messageQueue s)).
           destruct (fifo_drain e (set_isProcessing true (push m s))) as [-> ->].
           cbn. rewrite Nat.add_1_r. auto.
      * destruct (message ctx) as [m|];
          rewrite ?bool_decide_eq_false_2 by congruence;
          cbn; rewrite !app_nil_r; auto.
    + destruct (message ctx) as [m|];
        rewrite ?bool_decide_eq_false_2 by discriminate;
        cbn; rewrite !app_nil_r; auto.
  - rewrite !app_nil_r, Nat.add_0_r.
    destruct (suspended s !! i) as [tk|]; [|auto].
    destruct (await tk) as [f fileName rest| |]; auto.
    destruct o; cbn [downloadFile];
      try (match goal with
           | |- context [proceed ?e ?t ?m ?md ?a ?k ?s0] =>
               destruct (fifo_proceed e t m md a k s0) as (-> & -> & ->)
           end); auto.
  - rewrite !app_nil_r, Nat.add_0_r.
    destruct (suspended s !! i) as [tk|]; [|auto].
    destruct (await tk); auto.
    destruct ok; [|auto].
    destruct (fifo_drain e (set_suspended (delete i (suspended s)) s)) as [-> ->].
    auto.
Qed.

Lemma fifo_run (sched : list (Env * Event)) (s : State) :
  starts (history (run sched s)) ++ messageQueue (run sched s) =
    starts (history s) ++ messageQueue s ++ accepted (pushed s) sched.
Proof.
  revert s. induction sched as [|[e ev] rest IH]; intros s.
  - cbn. now rewrite app_nil_r.
  - cbn [run]. rewrite IH, accepted_cons.
    destruct (fifo_step e ev s) as [Hq Hp].
    rewrite Hp, app_assoc, Hq, <- !app_assoc. reflexivity.
Qed.

(** *** The note files hold what the history appended *)

Lemma written_app (file : string) (l1 l2 : list Action) :
  written file (l1 ++ l2) = written file l1 +:+ written file l2.
Proof.
  induction l1 as [|a l1 IH]; [reflexivity|].
  destruct a as [| | t f c [|] |]; cbn; auto.
  destruct (String.eqb f file); [|exact IH].
  rewrite IH. symmetry. apply append_assoc.
Qed.

Lemma archived_record (a : Action) (s : State) :
  (forall file, written file [a] = "") ->
  archived s -> archived (record a s).
Proof.
  intros Ha Hs file. unfold history. cbn.
  rewrite written_app, Ha, append_empty_r. apply Hs.
Qed.

Lemma archived_proceed (e : Env) (t : nat) (m : IncomingMessage) (md : string)
    (atts : list AttachmentEntry) (ks : list Kind) (s : State) :
  archived s -> archived (proceed e t m md atts ks s).
Proof.
  intros Hs. unfold proceed.
  destruct (nextFetch m ks) as [[f rest]|].
  - apply (archived_record (FetchStarted t (f_file_id f) _) s); auto.
  - apply (archived_record (Replied t)); [reflexivity|].
    unfold appendToNotes. destruct (appendSucceeds e).
    + intros file. unfold history. cbn. rewrite written_app. cbn.
      unfold appendFile. destruct (String.eqb_spec (getDayNotesFile e) file) as [<-|Hne].
      * rewrite lookup_insert_eq. cbn. rewrite append_empty_r.
        f_equal. apply Hs.
      * rewrite lookup_insert_ne by assumption.
        rewrite append_empty_r. apply Hs.
    + apply (archived_record (Appended t _ _ false) s); auto.
Qed.

Lemma archived_drain (e : Env) (s : State) : archived s -> archived (drain e s).
Proof.
  intros Hs. unfold drain. destruct (messageQueue s) as [|[t m] rest]; [exact Hs|].
  apply archived_proceed. now apply (archived_record (Started t m) (set_queue rest s)).
Qed.

Lemma archived_step (e : Env) (ev : Event) (s : State) :
  archived s -> archived (step e ev s).
Proof.
  intros Hs. destruct ev as [ctx|i o|i ok]; cbn [step].
  - unfold onMessage.
    destruct (from_id ctx) as [id|]; [|exact Hs].
    destruct (String.eqb _ ""); [exact Hs|].
    destruct (negb _); [exact Hs|].
    destruct (message ctx) as [m|]; [|exact Hs].
    unfold processQueue. destruct (_ || _); [exact Hs|].
    now apply archived_drain.
  - destruct (suspended s !! i) as [tk|]; [|exact Hs].
    destruct (await tk); try exact Hs.
    destruct o; cbn [downloadFile]; try exact Hs; now apply archived_proceed.
  - destruct (suspended s !! i) as [tk|]; [|exact Hs].
    destruct (await tk); try exact Hs.
    destruct ok; [|exact Hs]. now apply archived_drain.
Qed.

Lemma archived_run (sched : list (Env * Event)) (s : State) :
  archived s -> archived (run sched s).
Proof.
  revert s. induction sched as [|[e ev] rest IH]; intros s Hs; cbn [run]; auto.
  apply IH, archived_step, Hs.
Qed.

(** C1: whatever arrives and whenever the transfers and replies settle,
    at most one call of [processQueue] is ever suspended inside
    [processMessage], and it works on the message taken last, so nothing
    of a later message has happened while it is in flight; the pipeline's
    actions (entering [processMessage], starting a fetch, appending the
    record, replying) happen in ticket order, so the actions and fetches
    of one message are never interleaved with those of another; every
    record is appended at most once and the appended records are in
    ticket order, each note file holding exactly what the successful
    appends wrote to it, in that order; and the contexts taken into
    processing, followed by those still queued, are exactly the accepted
    messages in arrival order, numbered from 0. *)
Theorem one_at_a_time_fifo (sched : list (Env * Event)) :
  let s := run sched initial in
  length (suspended s) <= 1 /\
  (forall tk, tk ∈ suspended s ->
     Forall (fun a => ticketOf a <= ticket tk) (history s)) /\
  StronglySorted (fun a b => ticketOf a <= ticketOf b) (history s) /\
  StronglySorted lt (appendTickets (history s)) /\
  (forall file, default "" (notes s !! file) = written file (history s)) /\
  starts (history s) ++ messageQueue s = accepted 0 sched.
Proof.
  intros s. pose proof (Inv_run sched initial Inv_initial) as HI. fold s in HI.
  split; [exact (inv_one s HI)|]. split; [|split; [|split; [|split]]].
  - intros tk Htk. destruct (inv_busy s HI tk Htk) as [_ Ht].
    unfold history. apply Forall_forall. intros a Ha.
    apply list_elem_of_In, in_rev, list_elem_of_In in Ha.
    pose proof (inv_trace s HI) as Htr. rewrite Forall_forall in Htr.
    specialize (Htr a Ha). lia.
  - exact (StronglySorted_rev _ _ (inv_sorted s HI)).
  - unfold history. rewrite appendTickets_rev.
    exact (StronglySorted_rev _ _ (inv_app_sorted s HI)).
  - apply archived_run. intros file. cbn. now rewrite lookup_empty.
  - exact (fifo_run sched initial).
Qed.

End FifoFacts.

(** ** The archive writer and the acknowledgment *)

Lemma Acked_before_append (l1 l2 : list Action) (t : nat) (f c : string) (ok : bool) :
  Acked (l1 ++ Appended t f c ok :: l2) -> exists q, l1 = q ++ [Replied t].
Proof.
  intros HA. remember (l1 ++ Appended t f c ok :: l2) as l eqn:El.
  revert l1 El. induction HA as [|t' m l HA IH|t' i n l HA IH|t' f' c' ok' l HA IH];
    intros l1 El.
  - now destruct l1.
  - destruct l1 as [|a l1]; [discriminate|]. injection El as <- El.
    destruct (IH l1 El) as [q ->]. now exists (Started t' m :: q).
  - destruct l1 as [|a l1]; [discriminate|]. injection El as <- El.
    destruct (IH l1 El) as [q ->]. now exists (FetchStarted t' i n :: q).
  - destruct l1 as [|a [|b l1]]; [discriminate| |].
    + injection El as <- Et _ _ _ _. subst t'. now exists [].
    + injection El as <- <- El.
      destruct (IH l1 El) as [q ->].
      now exists (Replied t' :: Appended t' f' c' ok' :: q).
Qed.

Section WriterFacts.
Context `{Deployment}.

Lemma Acked_proceed (e : Env) (t : nat) (m : IncomingMessage) (md : string)
    (atts : list AttachmentEntry) (ks : list Kind) (s : State) :
  Acked (trace s) -> Acked (trace (proceed e t m md atts ks s)).
Proof.
  intros HA. unfold proceed, appendToNotes.
  destruct (nextFetch m ks) as [[f rest]|]; [|destruct (appendSucceeds e)];
    cbn; now constructor.
Qed.

Lemma Acked_drain (e : Env) (s : State) :
  Acked (trace s) -> Acked (trace (drain e s)).
Proof.
  intros HA. unfold drain. destruct (messageQueue s) as [|[t m] rest]; [exact HA|].
  apply Acked_proceed. cbn. now constructor.
Qed.

Lemma Acked_step (e : Env) (ev : Event) (s : State) :
  Acked (trace s) -> Acked (trace (step e ev s)).
Proof.
  intros HA. destruct ev as [ctx|i o|i ok]; cbn [step].
  - unfold onMessage.
    destruct (from_id ctx) as [id|]; [|exact HA].
    destruct (String.eqb _ ""); [exact HA|].
    destruct (negb _); [exact HA|].
    destruct (message ctx) as [m|]; [|exact HA].
    unfold processQueue. destruct (_ || _); [exact HA|].
    now apply Acked_drain.
  - destruct (suspended s !! i) as [tk|]; [|exact HA].
    destruct (await tk); try exact HA.
    destruct o; cbn [downloadFile]; try exact HA; now apply Acked_proceed.
  - destruct (suspended s !! i) as [tk|]; [|exact HA].
    destruct (await tk); try exact HA.
    destruct ok; [|exact HA]. now apply Acked_drain.
Qed.

Lemma Acked_run (sched : list (Env * Event)) (s : State) :
  Acked (trace s) -> Acked (trace (run sched s)).
Proof.
  revert s. induction sched as [|[e ev] rest IH]; intros s HA; cbn [run]; auto.
  apply IH, Acked_step, HA.
Qed.

(** C9: when [fs.appendFileSync] throws, [processMessage] leaves the note
    files as they were, logs the write error and goes on to call
    [ctx.reply], where it is suspended like after a successful write; and
    in every history each hand-over of a record to [fs.appendFileSync],
    successful or not, is directly followed by the reply for the same
    message. *)
Theorem append_failure_still_acknowledged :
  (forall e t m md atts ks s,
     nextFetch m ks = None -> appendSucceeds e = false ->
     let s' := proceed e t m md atts ks s in
     notes s' = notes s /\
     console s' = NotesWriteError :: console s /\
     trace s' =
       Replied t :: Appended t (getDayNotesFile e) (renderTail md atts +:+ NL) false
         :: trace s /\
     suspended s' =
       suspended s ++ [{| ticket := t; task_message := m;
                          markdownContent := renderTail md atts;
                          attachments := atts; await := AwaitReply |}]) /\
  (forall sched pre post t file content ok,
     history (run sched initial) = pre ++ Appended t file content ok :: post ->
     exists post', post = Replied t :: post').
Proof.
  split.
  - intros e t m md atts ks s Hnone Hfail. unfold proceed, appendToNotes.
    rewrite Hnone, Hfail. cbn. auto.
  - intros sched pre post t file content ok Hhist.
    pose proof (Acked_run sched initial Acked_nil) as HA.
    assert (Htrace : trace (run sched initial) =
                     rev post ++ Appended t file content ok :: rev pre).
    { rewrite <- (rev_involutive (trace _)). fold (history (run sched initial)).
      rewrite Hhist, rev_app_distr. cbn [rev]. now rewrite <- app_assoc. }
    rewrite Htrace in HA.
    destruct (Acked_before_append _ _ _ _ _ _ HA) as [q Hq].
    exists (rev q). rewrite <- (rev_involutive post), Hq, rev_app_distr.
    reflexivity.
Qed.

End WriterFacts.

Lemma append_failure_still_acknowledged_witness :
  exists post',
    [Replied 0] = Replied 0 :: post' /\
    notes (@run utcHost
             [(Sample.morningReadOnly, Inbound (Sample.fromOwner (Sample.withText "one")))]
             initial) = ∅.
Proof.
  destruct (@append_failure_still_acknowledged utcHost) as [Hlocal Hglobal].
  destruct (Hglobal
              [(Sample.morningReadOnly, Inbound (Sample.fromOwner (Sample.withText "one")))]
              [Started 0 (Sample.withText "one")] [Replied 0] 0
              "/srv/bot/notes/3-nov.md" _ false ltac:(vm_compute; reflexivity))
    as [post' Hpost].
  exists post'. split; [exact Hpost|].
  destruct (Hlocal Sample.morningReadOnly 0 (Sample.withText "one")
              (@renderHead utcHost Sample.morningReadOnly (Sample.withText "one"))
              [] kinds
              (record (Started 0 (Sample.withText "one"))
                 (set_queue [] (set_isProcessing true
                                  (push (Sample.withText "one") initial))))
              eq_refl eq_refl) as (Hnotes & _).
  exact Hnotes.
Defined.

(** ** Failures inside the processing loop *)

Section LoopFacts.
Context `{Deployment}.

(** Once [processQueue] has ended with [isProcessing] still set, nothing
    resets the flag: later messages are queued, never taken. *)
Lemma wedged_step (e : Env) (ev : Event) (s : State) :
  suspended s = [] -> isProcessing s = true ->
  let s' := step e ev s in
  suspended s' = [] /\ isProcessing s' = true /\ trace s' = trace s /\
  notes s' = notes s /\ attachmentFiles s' = attachmentFiles s /\
  exists more, messageQueue s' = messageQueue s ++ more.
Proof.
  intros Hnone Hproc. assert (Hq0 : messageQueue s = messageQueue s ++ []).
  { now rewrite app_nil_r. }
  destruct ev as [ctx|i o|i ok]; cbn [step].
  - unfold onMessage.
    destruct (from_id ctx) as [id|]; [|cbn; eauto 10].
    destruct (String.eqb _ ""); [cbn; eauto 10|].
    destruct (negb _); [cbn; eauto 10|].
    destruct (message ctx) as [m|]; [|cbn; eauto 10].
    unfold processQueue. cbn [isProcessing push]. rewrite Hproc. cbn.
    eauto 10.
  - rewrite Hnone. cbn. eauto 10.
  - rewrite Hnone. cbn. eauto 10.
Qed.

Lemma wedged_run (sched : list (Env * Event)) (s : State) :
  suspended s = [] -> isProcessing s = true ->
  let s' := run sched s in
  suspended s' = [] /\ isProcessing s' = true /\ trace s' = trace s /\
  notes s' = notes s /\ attachmentFiles s' = attachmentFiles s /\
  exists more, messageQueue s' = messageQueue s ++ more.
Proof.
  revert s. induction sched as [|[e ev] rest IH]; intros s Hnone Hproc.
  - cbn. repeat split; auto. exists []. now rewrite app_nil_r.
  - cbn [run].
    destruct (wedged_step e ev s Hnone Hproc) as (H1 & H2 & H3 & H4 & H5 & more & H6).
    destruct (IH _ H1 H2) as (G1 & G2 & G3 & G4 & G5 & more' & G6).
    cbn zeta. rewrite G3, G4, G5, G6, H3, H4, H5, H6.
    repeat split; auto. exists (more ++ more'). now rewrite app_assoc.
Qed.

(** A task whose awaited promise is never settled stays suspended: the
    loop is never resumed, nothing more is written. *)
Lemma stalled_step (e : Env) (ev : Event) (s : State) (tk : Task) :
  suspended s = [tk] -> await tk = AwaitNever -> isProcessing s = true ->
  let s' := step e ev s in
  suspended s' = [tk] /\ isProcessing s' = true /\ trace s' = trace s /\
  notes s' = notes s /\ attachmentFiles s' = attachmentFiles s.
Proof.
  intros Hs Haw Hproc. destruct ev as [ctx|i o|i ok]; cbn [step].
  - unfold onMessage.
    destruct (from_id ctx) as [id|]; [|cbn; auto].
    destruct (String.eqb _ ""); [cbn; auto|].
    destruct (negb _); [cbn; auto|].
    destruct (message ctx) as [m|]; [|cbn; auto].
    unfold processQueue. cbn [isProcessing push]. rewrite Hproc. cbn. auto.
  - rewrite Hs. destruct i as [|i]; cbn; [rewrite Haw|]; auto.
  - rewrite Hs. destruct i as [|i]; cbn; [rewrite Haw|]; auto.
Qed.

Lemma stalled_run (sched : list (Env * Event)) (s : State) (tk : Task) :
  suspended s = [tk] -> await tk = AwaitNever -> isProcessing s = true ->
  let s' := run sched s in
  suspended s' = [tk] /\ isProcessing s' = true /\ trace s' = trace s /\
  notes s' = notes s /\ attachmentFiles s' = attachmentFiles s.
Proof.
  revert s. induction sched as [|[e ev] rest IH]; intros s Hs Haw Hproc.
  - cbn. auto.
  - cbn [run].
    destruct (stalled_step e ev s tk Hs Haw Hproc) as (H1 & H2 & H3 & H4 & H5).
    destruct (IH _ H1 Haw H2) as (G1 & G2 & G3 & G4 & G5).
    cbn zeta. rewrite G3, G4, G5, H3, H4, H5. auto.
Qed.

(** The failures that [downloadFile] does handle: a rejected link and an
    error of the request make it resolve to [null], leave no file under
    the generated name, and log one diagnostic. *)
Lemma handled_failure_contained (o : Transfer) (fileName : string) (s : State) :
  o = LinkRejected \/ o = RequestError ->
  fileName ∉ attachmentFiles s ->
  snd (downloadFile o fileName s) = Some None /\
  (fileName ∉ attachmentFiles (fst (downloadFile o fileName s))) /\
  notes (fst (downloadFile o fileName s)) = notes s /\
  console (fst (downloadFile o fileName s)) = DownloadFailed fileName :: console s.
Proof.
  intros [-> | ->] Hfresh; cbn; repeat split; auto.
  rewrite elem_of_difference, elem_of_singleton. now intros [_ []].
Qed.

(** After such a failure of its only attachment the record is written
    without an Attachments section. *)
Lemma sole_attachment_failed (e : Env) (tk : Task) (f : Fetch) (fileName : string)
    (rest : list Kind) (o : Transfer) (s : State) :
  o = LinkRejected \/ o = RequestError ->
  suspended s = [tk] -> await tk = AwaitDownload f fileName rest ->
  attachments tk = [] -> nextFetch (task_message tk) rest = None ->
  trace (step e (TransferSettled 0 o) s) =
    Replied (ticket tk)
      :: Appended (ticket tk) (getDayNotesFile e)
           ((markdownContent tk +:+ NL +:+ "---" +:+ NL) +:+ NL) (appendSucceeds e)
      :: trace s.
Proof.
  intros Ho Hs Haw Hatts Hrest. cbn [step]. rewrite Hs. cbn. rewrite Haw.
  destruct Ho as [-> | ->]; cbn [downloadFile];
    unfold proceed, pushSaved, appendToNotes; cbn [JS.truthy];
    rewrite Hrest, Hatts; destruct (appendSucceeds e); reflexivity.
Qed.

End LoopFacts.

(** C2 on the code: the reply for the first of two accepted messages is
    rejected; [processQueue] ends there with [isProcessing] still set, the
    second message stays in the queue, and whatever happens afterwards it
    is never taken into processing and nothing is written for it. *)
Theorem reply_failure_wedges_queue (sched : list (Env * Event)) :
  let s := @run utcHost Sample.replyFails initial in
  messageQueue s = [(1, Sample.withText "two")] /\
  isProcessing s = true /\ suspended s = [] /\
  starts (history s) = [(0, Sample.withText "one")] /\
  starts (history (@run utcHost sched s)) = [(0, Sample.withText "one")] /\
  notes (@run utcHost sched s) = notes s /\
  exists more,
    messageQueue (@run utcHost sched s) = (1, Sample.withText "two") :: more.
Proof.
  intros s.
  assert (Hq : messageQueue s = [(1, Sample.withText "two")]) by reflexivity.
  assert (Hnone : suspended s = []) by reflexivity.
  assert (Hproc : isProcessing s = true) by reflexivity.
  destruct (@wedged_run utcHost sched s Hnone Hproc)
    as (_ & _ & Htrace & Hnotes & _ & more & Hmore).
  repeat split; auto.
  - unfold history. rewrite Htrace. reflexivity.
  - exists more. rewrite Hmore, Hq. reflexivity.
Qed.

(** C8 on the code: the write stream of a document's transfer fails after
    it created the file. No listener settles the promise of
    [downloadFile]: the task stays suspended at its [await], the partial
    file stays in the attachments directory, and whatever happens
    afterwards no record of the message is appended. *)
Theorem write_stream_error_never_recorded (sched : list (Env * Event)) :
  let s := @run utcHost Sample.writeStreamFails initial in
  (exists tk, suspended s = [tk] /\ await tk = AwaitNever) /\
  ("1793689323000_4fzyo8_plan_v2.docx" ∈ attachmentFiles (@run utcHost sched s)) /\
  appendTickets (history (@run utcHost sched s)) = [] /\
  notes (@run utcHost sched s) = ∅.
Proof.
  intros s.
  assert (Hs : exists tk, suspended s = [tk] /\ await tk = AwaitNever).
  { destruct (suspended s) as [|tk [|]] eqn:E; try discriminate E.
    exists tk. split; [reflexivity|]. now injection E as <-. }
  destruct Hs as (tk & Hs & Haw).
  assert (Hproc : isProcessing s = true) by reflexivity.
  destruct (@stalled_run utcHost sched s tk Hs Haw Hproc)
    as (_ & _ & Htrace & Hnotes & Hfiles).
  split; [eauto|]. split; [|split].
  - rewrite Hfiles. apply (bool_decide_unpack _). vm_compute. reflexivity.
  - unfold history. rewrite Htrace. reflexivity.
  - rewrite Hnotes. reflexivity.
Qed.

(** ** The theorems at sample inputs *)

(** Two accepted messages, the second arriving while the document of the
    first is still being fetched: everything of the first happens before
    anything of the second. *)
Example back_to_back :
  map ticketOf
    (history (@run utcHost
       [(Sample.morning, Inbound (Sample.fromOwner (Sample.withDocument Sample.planDocument)));
        (Sample.morning, Inbound (Sample.fromOwner (Sample.withText "two")));
        (Sample.later, TransferSettled 0 Finished);
        (Sample.later, ReplySettled 0 true);
        (Sample.later, ReplySettled 0 true)]
       initial))
  = [0; 0; 0; 0; 1; 1; 1]%nat.
Proof. vm_compute. reflexivity. Qed.

Lemma text_only_fragment_witness :
  trace (@processMessage utcHost Sample.morning 0 (Sample.withText "buy milk") initial) =
    [Replied 0;
     Appended 0 "/srv/bot/notes/3-nov.md"
       (NL +:+ "---" +:+ NL +:+ "**07:02:03**" +:+ NL +:+ NL +:+ "buy milk"
          +:+ NL +:+ NL +:+ "---" +:+ NL +:+ NL) true;
     Started 0 (Sample.withText "buy milk")].
Proof.
  assert (Hvalid : JS.validDate
            (@timestampDate utcHost Sample.morning (date (Sample.withText "buy milk")))).
  { vm_compute. repeat split; congruence. }
  destruct (@text_only_fragment utcHost Sample.morning 0
              (Sample.withText "buy milk") "buy milk" initial eq_refl
              ltac:(discriminate) ltac:(repeat split) ltac:(repeat split) Hvalid)
    as [_ Htrace].
  rewrite Htrace. reflexivity.
Defined.

Lemma forward_annotation_witness :
  formatForwardInfo
    (Sample.forwarded (Some Sample.alice) (Some Sample.news) (Some "A. Lice"))
    = " - Forwarded from @alice" /\
  formatForwardInfo
    (Sample.forwarded (Some Sample.aliceNoHandle) (Some Sample.news) (Some "A. Lice"))
    = " - Forwarded from Alice" /\
  formatForwardInfo (Sample.forwarded None (Some Sample.news) (Some "A. Lice"))
    = " - Forwarded from News" /\
  formatForwardInfo (Sample.forwarded None None (Some "A. Lice"))
    = " - Forwarded from A. Lice".
Proof.
  split; [|split; [|split]].
  - exact (proj1 (@forward_annotation utcHost Sample.morning 0
                    (Sample.forwarded (Some Sample.alice) (Some Sample.news)
                       (Some "A. Lice")) initial)
             Sample.alice "alice" eq_refl eq_refl ltac:(discriminate)).
  - exact (proj1 (proj2 (@forward_annotation utcHost Sample.morning 0
                    (Sample.forwarded (Some Sample.aliceNoHandle) (Some Sample.news)
                       (Some "A. Lice")) initial))
             Sample.aliceNoHandle "Alice" eq_refl eq_refl eq_refl).
  - exact (proj1 (proj2 (proj2 (@forward_annotation utcHost Sample.morning 0
                    (Sample.forwarded None (Some Sample.news) (Some "A. Lice"))
                    initial)))
             Sample.news "News" eq_refl eq_refl eq_refl).
  - exact (proj1 (proj2 (proj2 (proj2 (@forward_annotation utcHost Sample.morning 0
                    (Sample.forwarded None None (Some "A. Lice")) initial))))
             "A. Lice" eq_refl eq_refl eq_refl ltac:(discriminate)).
Defined.

Lemma unauthorized_dropped_witness :
  notes (@step utcHost Sample.morning
           (Inbound (Sample.fromStranger (Sample.withDocument Sample.planDocument)))
           initial) = ∅ /\
  trace (@step utcHost Sample.morning
           (Inbound (Sample.fromStranger (Sample.withDocument Sample.planDocument)))
           initial) = [].
Proof.
  destruct (@unauthorized_dropped utcHost Sample.morning
              (Sample.fromStranger (Sample.withDocument Sample.planDocument))
              initial ltac:(discriminate))
    as (_ & _ & _ & _ & Hnotes & _ & Htrace & _).
  split; [exact Hnotes | exact Htrace].
Defined.

(** * Further properties of the code *)

(** ** Photo variants *)

Section PhotoFacts.
Context `{Deployment}.

(** X1: of the variants of a photo the last one is fetched, first of all
    attachments and under a name built from [photo] and [.jpg]; an empty
    list of variants is no photo. *)
Theorem photo_last_variant (e : Env) (t : nat) (m : IncomingMessage)
    (variants : list FileId) (largest : FileId) (s : State) :
  photo m = Some (variants ++ [largest]) ->
  trace (processMessage e t m s) =
    FetchStarted t (file_id largest) (generateFileName e "photo" ".jpg")
      :: Started t m :: trace s /\
  (forall m', photo m' = Some [] -> fetchOf m' Photo = None).
Proof.
  intros Hp. split.
  - unfold processMessage, proceed. cbn [kinds nextFetch fetchOf]. rewrite Hp.
    destruct variants as [|v vs]; cbn [app].
    + reflexivity.
    + rewrite last_last. reflexivity.
  - intros m' Hm'. cbn. now rewrite Hm'.
Qed.

End PhotoFacts.

Lemma photo_last_variant_witness :
  trace (@processMessage utcHost Sample.morning 0 Scenario.photos initial) =
    [FetchStarted 0 "AgAClarge" "1793689323000_4fzyo8_photo.jpg";
     Started 0 Scenario.photos].
Proof.
  destruct (@photo_last_variant utcHost Sample.morning 0 Scenario.photos
              [ {| file_id := "AgACsmall" |} ] {| file_id := "AgAClarge" |}
              initial eq_refl) as [Htrace _].
  rewrite Htrace. reflexivity.
Defined.

(** ** Sanitized names *)

Lemma all_chars_impl (p q : ascii -> bool) (s : string) :
  (forall c, p c = true -> q c = true) ->
  JS.all_chars p s = true -> JS.all_chars q s = true.
Proof.
  intros Hpq. induction s as [|c s IH]; [reflexivity|]. cbn.
  intros [Hc Hs]%andb_prop. now rewrite (Hpq c Hc), IH.
Qed.

Lemma all_chars_app (p : ascii -> bool) (a b : string) :
  JS.all_chars p (a +:+ b) = JS.all_chars p a && JS.all_chars p b.
Proof.
  induction a as [|c a IH]; [reflexivity|].
  change (String c a +:+ b) with (String c (a +:+ b)). cbn.
  now rewrite IH, andb_assoc.
Qed.

Lemma length_append (a b : string) :
  String.length (a +:+ b) = String.length a + String.length b.
Proof.
  induction a as [|c a IH]; [reflexivity|].
  change (String c a +:+ b) with (String c (a +:+ b)). cbn. now rewrite IH.
Qed.

Lemma is_name_char_sanitized (c : ascii) :
  is_name_char (if JS.is_alnum c then c else "_"%char) = true.
Proof. unfold is_name_char. destruct (JS.is_alnum c) eqn:E; [now rewrite E | reflexivity]. Qed.

Lemma replace_non_alnum_chars (s : string) :
  JS.all_chars is_name_char (JS.replace_non_alnum s) = true.
Proof.
  induction s as [|c s IH]; [reflexivity|].
  cbn. fold (JS.replace_non_alnum s). now rewrite is_name_char_sanitized, IH.
Qed.

Lemma replace_non_alnum_length (s : string) :
  String.length (JS.replace_non_alnum s) = String.length s.
Proof. induction s as [|c s IH]; [reflexivity|]. cbn. now f_equal. Qed.


(** Every generated name is the decimal clock reading, an
    underscore, the random token, an underscore, a sanitized base and the
    extension as given; the sanitized base is never empty, consists of
    letters, digits and underscores, and is [file] for an empty base
    name and as long as the base name otherwise. *)
Theorem generated_name_shape (e : Env) (baseName extension : string) :
  exists sanitized,
    generateFileName e baseName extension =
      JS.toString (clock e) +:+ "_" +:+ JS.substring 2 8 (random36 e) +:+ "_"
        +:+ sanitized +:+ extension /\
    sanitized <> "" /\
    JS.all_chars is_name_char sanitized = true /\
    (baseName = "" -> sanitized = "file") /\
    (baseName <> "" -> String.length sanitized = String.length baseName).
Proof.
  unfold generateFileName. cbn zeta.
  destruct (String.eqb_spec baseName "") as [->|Hne].
  - exists "file". repeat split; auto; try discriminate. intros []. reflexivity.
  - exists (JS.replace_non_alnum baseName).
    split; [reflexivity|]. split; [|split; [|split]].
    + intros Hempty. apply (f_equal String.length) in Hempty.
      rewrite replace_non_alnum_length in Hempty.
      destruct baseName; [contradiction | discriminate].
    + apply replace_non_alnum_chars.
    + intros ->. contradiction.
    + intros _. apply replace_non_alnum_length.
Qed.

(** ** Stored names stay inside the attachments directory *)

Lemma all_chars_of_list (p : ascii -> bool) (l : list ascii) :
  JS.all_chars p (String.string_of_list_ascii l) = forallb p l.
Proof. induction l as [|c l IH]; [reflexivity|]. cbn. now rewrite IH. Qed.

Lemma forallb_rev {A : Type} (p : A -> bool) (l : list A) :
  forallb p (rev l) = forallb p l.
Proof.
  induction l as [|x l IH]; [reflexivity|].
  cbn. rewrite forallb_app, IH. cbn. rewrite andb_true_r. apply andb_comm.
Qed.

Lemma upto_slash_no_slash (l : list ascii) :
  forallb not_slash (JS.upto_slash l) = true.
Proof.
  induction l as [|c l IH]; [reflexivity|]. cbn.
  destruct (Ascii.eqb c "/") eqn:E; [reflexivity|].
  cbn. unfold not_slash at 1. now rewrite E, IH.
Qed.

Lemma lastSegment_no_slash (p : string) :
  JS.all_chars not_slash (JS.lastSegment p) = true.
Proof.
  unfold JS.lastSegment. rewrite all_chars_of_list, forallb_rev.
  apply upto_slash_no_slash.
Qed.

Lemma splitLastDot_app (s stem ext : string) :
  JS.splitLastDot s = Some (stem, ext) -> s = stem +:+ ext.
Proof.
  revert stem ext. induction s as [|c s IH]; intros stem ext; [discriminate|].
  cbn. destruct (JS.splitLastDot s) as [[stem' ext']|].
  - intros [= <- <-]. now rewrite (IH _ _ eq_refl).
  - destruct (Ascii.eqb c "."); [|discriminate]. now intros [= <- <-].
Qed.

Lemma extname_no_slash (p : string) :
  JS.all_chars not_slash (JS.extname p) = true.
Proof.
  unfold JS.extname. destruct (String.eqb _ ".."); [reflexivity|].
  destruct (JS.splitLastDot (JS.lastSegment p)) as [[stem ext]|] eqn:E; [|reflexivity].
  pose proof (lastSegment_no_slash p) as Hseg.
  rewrite (splitLastDot_app _ _ _ E), all_chars_app in Hseg.
  apply andb_prop in Hseg as [_ Hext]. now destruct stem.
Qed.

Lemma name_char_not_slash (c : ascii) : is_name_char c = true -> not_slash c = true.
Proof.
  unfold is_name_char, not_slash. destruct (Ascii.eqb_spec c "/") as [->|]; auto.
Qed.

Lemma digit_not_slash (c : ascii) : JS.is_digit c = true -> not_slash c = true.
Proof.
  unfold not_slash. destruct (Ascii.eqb_spec c "/") as [->|]; auto.
Qed.

Lemma fetch_extension_no_slash (m : IncomingMessage) (k : Kind) (f : Fetch) :
  fetchOf m k = Some f -> JS.all_chars not_slash (f_extension f) = true.
Proof.
  destruct k; cbn; intros Hf;
    repeat match type of Hf with
           | match ?x with _ => _ end = Some _ => destruct x; try discriminate
           end; injection Hf as <-; cbn [f_extension plain]; try reflexivity.
  - unfold JS.orElse.
    destruct (String.eqb _ ""); [reflexivity|].
    destruct (JS.truthy _); [apply extname_no_slash | reflexivity].
  - destruct (JS.truthy _); [apply extname_no_slash | reflexivity].
Qed.

(** X3: the name generated for any attachment of any message contains no
    path separator when the random token contains none, and it starts
    with a digit: joined to the attachments directory it names a file
    directly in that directory, whatever filename the sender declared. *)
Theorem stored_name_inside_directory (e : Env) (m : IncomingMessage)
    (k : Kind) (f : Fetch) :
  fetchOf m k = Some f ->
  JS.all_chars not_slash (JS.substring 2 8 (random36 e)) = true ->
  JS.all_chars not_slash (generateFileName e (f_baseName f) (f_extension f)) = true /\
  exists c rest,
    generateFileName e (f_baseName f) (f_extension f) = String c rest /\
    JS.is_digit c = true.
Proof.
  intros Hf Htok.
  destruct (generated_name_shape e (f_baseName f) (f_extension f))
    as (san & -> & _ & Hsan & _).
  split.
  - rewrite !all_chars_app, Htok, (fetch_extension_no_slash _ _ _ Hf).
    rewrite (all_chars_impl _ _ _ digit_not_slash (toString_digits _)).
    rewrite (all_chars_impl _ _ _ name_char_not_slash Hsan). reflexivity.
  - pose proof (toString_digits (clock e)) as Hd.
    pose proof (toString_nonempty (clock e)) as Hne.
    destruct (JS.toString (clock e)) as [|c rest]; [contradiction|].
    cbn in Hd. apply andb_prop in Hd as [Hc _].
    exists c. eexists. split; [reflexivity | exact Hc].
Qed.

Lemma stored_name_inside_directory_witness :
  exists f,
    fetchOf (Sample.withDocument
               {| named_file_id := "BQAC"; file_name := Some "../../etc/x/.hidden" |})
      Document = Some f /\
    generateFileName Sample.morning (f_baseName f) (f_extension f)
      = "1793689323000_4fzyo8__hidden.bin" /\
    JS.all_chars not_slash
      (generateFileName Sample.morning (f_baseName f) (f_extension f)) = true.
Proof.
  eexists. split; [reflexivity|]. split; [reflexivity|].
  exact (proj1 (stored_name_inside_directory Sample.morning
                  (Sample.withDocument
                     {| named_file_id := "BQAC";
                        file_name := Some "../../etc/x/.hidden" |})
                  Document _ eq_refl eq_refl)).
Defined.

(** ** Names generated at different instants or with different tokens *)








(** ** One file per calendar day *)

Section DayFileDistinct.
Context `{Deployment}.

Lemma day_names_distinct (d1 m1 d2 m2 : N) :
  (1 <= d1 <= 31)%N -> (m1 < 12)%N -> (1 <= d2 <= 31)%N -> (m2 < 12)%N ->
  (JS.toString d1 +:+ "-" +:+ JS.show (MONTH_NAMES !! N.to_nat m1)) +:+ ".md" =
  (JS.toString d2 +:+ "-" +:+ JS.show (MONTH_NAMES !! N.to_nat m2)) +:+ ".md" ->
  d1 = d2 /\ m1 = m2.
Proof.
  intros Hd1 Hm1 Hd2 Hm2 Heq.
  pose (nm := fun p : nat * nat =>
    (JS.toString (N.of_nat (fst p)) +:+ "-"
       +:+ JS.show (MONTH_NAMES !! snd p)) +:+ ".md").
  pose (days := list_prod (seq 1 31) (seq 0 12)).
  assert (Hall : forallb (fun p => forallb (fun q =>
                    implb (String.eqb (nm p) (nm q))
                          (Nat.eqb (fst p) (fst q) && Nat.eqb (snd p) (snd q)))
                    days) days = true) by (vm_compute; reflexivity).
  rewrite forallb_forall in Hall.
  assert (Hin : forall d m, (1 <= d <= 31)%N -> (m < 12)%N ->
                  In (N.to_nat d, N.to_nat m) days).
  { intros d m Hd Hm. apply in_prod; apply in_seq; lia. }
  specialize (Hall _ (Hin d1 m1 Hd1 Hm1)). rewrite forallb_forall in Hall.
  specialize (Hall _ (Hin d2 m2 Hd2 Hm2)).
  unfold nm in Hall. cbn [fst snd] in Hall. rewrite !N2Nat.id, Heq in Hall.
  rewrite String.eqb_refl in Hall. cbn [implb] in Hall.
  apply andb_prop in Hall as [Hd Hm].
  apply Nat.eqb_eq in Hd, Hm. split; lia.
Qed.

(** X5: for valid dates, records written on different days of the month
    or in different months go to different note files: equal paths mean
    equal day of the month and equal month. *)
Theorem day_files_differ (e1 e2 : Env) :
  JS.validDate (newDate (clock e1)) -> JS.validDate (newDate (clock e2)) ->
  getDayNotesFile e1 = getDayNotesFile e2 ->
  JS.getDate (newDate (clock e1)) = JS.getDate (newDate (clock e2)) /\
  JS.getMonth (newDate (clock e1)) = JS.getMonth (newDate (clock e2)).
Proof.
  intros (_ & _ & _ & Hd1 & Hm1) (_ & _ & _ & Hd2 & Hm2) Heq.
  unfold getDayNotesFile, path_join in Heq. cbn zeta in Heq.
  apply String.app_inj in Heq. apply (String.app_inj "/") in Heq.
  now apply day_names_distinct.
Qed.

End DayFileDistinct.

Lemma day_files_differ_witness :
  JS.getDate (utcDate (clock Sample.morning)) = JS.getDate (utcDate (clock Sample.later)).
Proof.
  assert (Hv1 : JS.validDate (@newDate utcHost (clock Sample.morning))).
  { vm_compute. repeat split; congruence. }
  assert (Hv2 : JS.validDate (@newDate utcHost (clock Sample.later))).
  { vm_compute. repeat split; congruence. }
  exact (proj1 (@day_files_differ utcHost Sample.morning Sample.later Hv1 Hv2 eq_refl)).
Defined.

(** ** Base name and extension of a declared filename *)

Lemma drop_slashes_id (l : list ascii) :
  forallb not_slash l = true -> JS.drop_slashes l = l.
Proof.
  destruct l as [|c l]; [reflexivity|]. cbn. unfold not_slash at 1.
  now destruct (Ascii.eqb c "/").
Qed.

Lemma upto_slash_id (l : list ascii) :
  forallb not_slash l = true -> JS.upto_slash l = l.
Proof.
  induction l as [|c l IH]; [reflexivity|]. cbn. unfold not_slash at 1.
  destruct (Ascii.eqb c "/"); [discriminate|]. cbn. intros Hl. now rewrite IH.
Qed.

Lemma all_chars_to_list (p : ascii -> bool) (s : string) :
  forallb p (String.list_ascii_of_string s) = JS.all_chars p s.
Proof. induction s as [|c s IH]; [reflexivity|]. cbn. now rewrite IH. Qed.

Lemma lastSegment_id (n : string) :
  JS.all_chars not_slash n = true -> JS.lastSegment n = n.
Proof.
  intros Hn. unfold JS.lastSegment.
  assert (Hrev : forallb not_slash (rev (String.list_ascii_of_string n)) = true).
  { now rewrite forallb_rev, all_chars_to_list. }
  rewrite (drop_slashes_id _ Hrev), (upto_slash_id _ Hrev), rev_involutive.
  apply String.string_of_list_ascii_of_string.
Qed.

Lemma list_of_append (a b : string) :
  String.list_ascii_of_string (a +:+ b) =
    String.list_ascii_of_string a ++ String.list_ascii_of_string b.
Proof.
  induction a as [|c a IH]; [reflexivity|].
  change (String c a +:+ b) with (String c (a +:+ b)). cbn. now rewrite IH.
Qed.

Lemma strip_suffix_rev_app (ext stem : list ascii) :
  JS.strip_suffix_rev ext (ext ++ stem) = Some stem.
Proof.
  induction ext as [|c ext IH]; [reflexivity|].
  cbn. now rewrite Ascii.eqb_refl.
Qed.

Lemma basename_extname (n : string) :
  JS.basename n (JS.extname n) +:+ JS.extname n = JS.lastSegment n.
Proof.
  unfold JS.extname, JS.basename.
  destruct (String.eqb (JS.lastSegment n) "..") eqn:Edots.
  { cbn. now rewrite append_empty_r. }
  destruct (JS.splitLastDot (JS.lastSegment n)) as [[stem ext]|] eqn:Esplit;
    [|cbn; now rewrite append_empty_r].
  destruct stem as [|c stem]; [cbn; now rewrite append_empty_r|].
  pose proof (splitLastDot_app _ _ _ Esplit) as Hseg.
  destruct (String.eqb_spec ext "") as [->|Hext]; [now rewrite append_empty_r|].
  destruct (String.eqb_spec ext n) as [->|Hn].
  { exfalso. pose proof (lastSegment_no_slash n) as Hns.
    rewrite Hseg, all_chars_app in Hns. apply andb_prop in Hns as [_ Hns].
    rewrite (lastSegment_id _ Hns) in Hseg.
    apply (f_equal String.length) in Hseg. rewrite length_append in Hseg.
    cbn in Hseg. lia. }
  rewrite Hseg at 1. rewrite list_of_append, rev_app_distr, strip_suffix_rev_app.
  cbn [String.list_ascii_of_string rev].
  destruct (rev (String.list_ascii_of_string stem) ++ [c]) as [|x l] eqn:El.
  { now destruct (rev (String.list_ascii_of_string stem)). }
  rewrite <- El, rev_app_distr, rev_involutive. cbn [rev app].
  cbn [String.string_of_list_ascii].
  now rewrite String.string_of_list_ascii_of_string, Hseg.
Qed.

(** X6: a declared filename without path separators is split without
    loss: for a document and for an audio, the base name handed to
    [generateFileName] followed by the extension of the declared name is
    the declared name again; the extension handed over is that
    extension, with [.bin] in its place for a document that has none. *)
Theorem declared_name_split (m : IncomingMessage) (k : Kind) (f : Fetch)
    (n : string) :
  Spec.declaredName m k = Some n ->
  JS.all_chars not_slash n = true ->
  fetchOf m k = Some f ->
  f_baseName f +:+ JS.extname n = n /\
  f_extension f =
    match k with
    | Document => if String.eqb (JS.extname n) "" then ".bin" else JS.extname n
    | _ => JS.extname n
    end.
Proof.
  intros Hdecl Hns Hf.
  pose proof (basename_extname n) as Hrt. rewrite (lastSegment_id _ Hns) in Hrt.
  destruct k; try discriminate Hdecl; cbn in Hdecl, Hf.
  - destruct (document m) as [d|]; [|discriminate].
    destruct (JS.truthy (file_name d)) eqn:Ht; [|discriminate].
    rewrite Hdecl in Hf. cbn [JS.show] in Hf. injection Hf as <-.
    cbn [f_baseName f_extension JS.orElse]. auto.
  - destruct (audio m) as [a|]; [|discriminate].
    destruct (JS.truthy (file_name a)) eqn:Ht; [|discriminate].
    rewrite Hdecl in Hf. cbn [JS.show] in Hf. injection Hf as <-.
    cbn [f_baseName f_extension]. auto.
Qed.

Lemma declared_name_split_witness :
  exists f,
    fetchOf (Sample.withDocument Sample.planDocument) Document = Some f /\
    f_baseName f +:+ ".docx" = "plan v2.docx" /\ f_extension f = ".docx".
Proof.
  eexists. split; [reflexivity|].
  exact (declared_name_split (Sample.withDocument Sample.planDocument) Document _
           "plan v2.docx" eq_refl eq_refl eq_refl).
Defined.

(** ** Embeds and links *)

Lemma fetchOf_kind (m : IncomingMessage) (k : Kind) (f : Fetch) :
  fetchOf m k = Some f -> f_kind f = k.
Proof.
  destruct k; cbn; intros Hf;
    repeat match type of Hf with
           | match ?x with _ => _ end = _ => destruct x; try discriminate
           end; injection Hf as <-; reflexivity.
Qed.

(** X7: a fetched photo, video or video note is rendered as an image
    embed, a fetched document, audio or voice clip as a list item with a
    link and the kind in parentheses; both point into [../attachments/]
    at the stored name. *)
Theorem embed_or_link (m : IncomingMessage) (k : Kind) (f : Fetch)
    (saved : string) (atts : list AttachmentEntry) :
  fetchOf m k = Some f -> saved <> "" ->
  exists att,
    pushSaved f (Some saved) atts = atts ++ [att] /\
    renderAttachment att =
      match k with
      | Photo | Video | VideoNote =>
          "![" +:+ displayName att +:+ "](../attachments/" +:+ saved +:+ ")" +:+ NL
      | Document | Audio | Voice =>
          "- [" +:+ displayName att +:+ "](../attachments/" +:+ saved +:+ ") _("
            +:+ label k +:+ ")_" +:+ NL
      end.
Proof.
  intros Hf Hsaved. unfold pushSaved. rewrite (truthy_Some _ Hsaved).
  eexists; split; [reflexivity|].
  unfold renderAttachment, isImage. cbn [type name JS.show].
  rewrite (fetchOf_kind _ _ _ Hf). destruct k; reflexivity.
Qed.

Lemma embed_or_link_witness :
  exists att,
    pushSaved (plain Voice {| file_id := "AwACAgIAAx0" |} "voice" ".ogg")
      (Some "1793689323000_4fzyo8_voice.ogg") [] = [att] /\
    renderAttachment att =
      "- [1793689323000_4fzyo8_voice.ogg](../attachments/1793689323000_4fzyo8_voice.ogg) _(Voice)_"
        +:+ NL.
Proof.
  destruct (embed_or_link
              {| date := None; forward_from := None; forward_from_chat := None;
                 forward_sender_name := None; text := None; caption := None;
                 photo := None; document := None; video := None; audio := None;
                 voice := Some {| file_id := "AwACAgIAAx0" |}; video_note := None |}
              Voice _ "1793689323000_4fzyo8_voice.ogg" [] eq_refl
              ltac:(discriminate)) as (att & Hpush & Hrender).
  exists att. split; [exact Hpush|].
  rewrite Hrender. cbn in Hpush. injection Hpush as <-. reflexivity.
Defined.

(** ** The earlier handler *)

Lemma legacy_fetchOf_kind (m : IncomingMessage) (k : Kind) (f : Fetch) :
  Legacy.fetchOf m k = Some f -> f_kind f = k.
Proof.
  destruct k; cbn; intros Hf;
    repeat match type of Hf with
           | match ?x with _ => _ end = _ => destruct x; try discriminate
           end; injection Hf as <-; reflexivity.
Qed.

(** X8: in the earlier handler an attachment is displayed under the
    declared filename when the source provided one and under the stored
    name otherwise, also for a document or audio without declared name;
    every attachment, photos included, is a list item that links into
    [./attachments/]. *)
Theorem legacy_display_name (m : IncomingMessage) (k : Kind) (f : Fetch)
    (saved : string) (atts : list AttachmentEntry) :
  Legacy.fetchOf m k = Some f -> saved <> "" ->
  exists att,
    pushSaved f (Some saved) atts = atts ++ [att] /\
    displayName att =
      match Spec.declaredName m k with
      | Some declared => declared
      | None => saved
      end /\
    Legacy.renderAttachment att =
      "- [" +:+ displayName att +:+ "](./attachments/" +:+ saved +:+ ") _("
        +:+ label k +:+ ")_" +:+ NL.
Proof.
  intros Hf Hsaved. unfold pushSaved. rewrite (truthy_Some _ Hsaved).
  eexists; split; [reflexivity|]. split.
  - unfold displayName. cbn [originalName name JS.show].
    destruct k; cbn in Hf |- *;
      repeat match type of Hf with
             | match ?x with _ => _ end = Some _ => destruct x eqn:?; try discriminate
             end; injection Hf as <-; cbn [f_originalName plain JS.orElse];
      try reflexivity.
    + destruct (JS.truthy (file_name n)) eqn:Ht.
      * destruct (truthy_declared _ Ht) as (s & Hs1 & Hs).
        rewrite Hs1. apply (orElse_Some s _ Hs).
      * apply (truthy_orElse _ _ Ht).
    + destruct (JS.truthy (file_name n)) eqn:Ht.
      * destruct (truthy_declared _ Ht) as (s & Hs1 & Hs).
        rewrite Hs1. apply (orElse_Some s _ Hs).
      * apply (truthy_orElse _ _ Ht).
  - unfold Legacy.renderAttachment. cbn [name type JS.show].
    now rewrite (legacy_fetchOf_kind _ _ _ Hf).
Qed.

Lemma legacy_display_name_witness :
  exists att,
    pushSaved {| f_kind := Document; f_file_id := "BQACAgIAAx1";
                 f_baseName := "document"; f_extension := "";
                 f_originalName := None |}
      (Some "1793689323000_document") [] = [att] /\
    displayName att = "1793689323000_document".
Proof.
  destruct (legacy_display_name (Sample.withDocument Sample.unnamedDocument)
              Document _ "1793689323000_document" [] eq_refl
              ltac:(discriminate)) as (att & Hpush & Hdisp & _).
  exists att. split; [exact Hpush | exact Hdisp].
Defined.

(** ** Process start *)

Section BootstrapFacts.
Context `{Deployment}.

(** X9: the process exits with code 1, creating no directory, exactly
    when the bot token or the allowed user id is missing or empty;
    otherwise both directories exist afterwards, nothing that existed is
    removed, and a second start on the resulting directories creates
    and logs nothing. *)
Theorem bootstrap_idempotent (BOT_TOKEN allowed : option string) (dirs : gset string) :
  (bootstrap BOT_TOKEN allowed dirs = Exits 1 <->
     JS.truthy BOT_TOKEN = false \/ JS.truthy allowed = false) /\
  (forall dirs' logged,
     bootstrap BOT_TOKEN allowed dirs = Runs dirs' logged ->
     dirs ⊆ dirs' /\ NOTES_DIR ∈ dirs' /\ ATTACHMENTS_DIR ∈ dirs' /\
     bootstrap BOT_TOKEN allowed dirs' = Runs dirs' []).
Proof.
  unfold bootstrap. split.
  - destruct (JS.truthy BOT_TOKEN), (JS.truthy allowed); cbn;
      try (split; [auto | reflexivity]).
    split; [|intros [|]; discriminate].
    repeat case_bool_decide; discriminate.
  - intros dirs' logged.
    destruct (JS.truthy BOT_TOKEN), (JS.truthy allowed); cbn; try discriminate.
    repeat case_bool_decide; intros [= <- <-];
      (split; [set_unfold; tauto|]); (split; [set_unfold; tauto|]);
      (split; [set_unfold; tauto|]);
      repeat case_bool_decide; try reflexivity; exfalso; set_unfold; tauto.
Qed.

End BootstrapFacts.

(** ** Shape of the tasks and of the records *)

Lemma nextFetch_split (m : IncomingMessage) (ks : list Kind) (f : Fetch)
    (rest : list Kind) :
  nextFetch m ks = Some (f, rest) -> exists skipped, ks = skipped ++ f_kind f :: rest.
Proof.
  induction ks as [|k ks IH]; [discriminate|]. cbn.
  destruct (fetchOf m k) as [f'|] eqn:Ef.
  - intros [= <- <-]. exists []. now rewrite (fetchOf_kind _ _ _ Ef).
  - intros Hn. destruct (IH Hn) as [skipped ->]. now exists (k :: skipped).
Qed.

Lemma delimited_tail (rest : string) (atts : list AttachmentEntry) :
  delimited (renderTail ((NL +:+ "---" +:+ NL +:+ "**") +:+ rest) atts +:+ NL).
Proof.
  exists (rest +:+ renderAttachments atts).
  unfold renderTail. rewrite !append_assoc. reflexivity.
Qed.

Section ShapeFacts.
Context `{Deployment}.

Lemma shaped_proceed (e : Env) (t : nat) (m : IncomingMessage) (rest : string)
    (atts : list AttachmentEntry) (done ks : list Kind) (s : State) :
  kinds = done ++ ks ->
  map type atts `sublist_of` map label done ->
  shaped s ->
  shaped (proceed e t m ((NL +:+ "---" +:+ NL +:+ "**") +:+ rest) atts ks s).
Proof.
  intros Hk Hsub [Htasks Hrec]. unfold proceed.
  destruct (nextFetch m ks) as [[f rest']|] eqn:En.
  - destruct (nextFetch_split _ _ _ _ En) as [skipped ->].
    split; cbn.
    + apply Forall_app. split; [exact Htasks|].
      constructor; [|constructor]. split; cbn.
      * eauto.
      * exists (done ++ skipped). split; [now rewrite <- app_assoc|].
        rewrite map_app. now apply sublist_inserts_r.
    + constructor; [exact I | exact Hrec].
  - split.
    + unfold appendToNotes. destruct (appendSucceeds e); cbn.
      all: apply Forall_app; split; [exact Htasks|].
      all: apply Forall_cons_2; [|apply Forall_nil_2].
      all: split; cbn [await attachments markdownContent].
      all: try (unfold renderTail; rewrite append_assoc; eauto; fail).
      all: rewrite Hk, map_app; now apply sublist_inserts_r.
    + unfold appendToNotes. destruct (appendSucceeds e); cbn;
        (constructor; [exact I|]; constructor; [apply delimited_tail | exact Hrec]).
Qed.

Lemma shaped_drain (e : Env) (s : State) : shaped s -> shaped (drain e s).
Proof.
  intros Hs. unfold drain. destruct (messageQueue s) as [|[t m] rest]; [exact Hs|].
  unfold processMessage.
  replace (renderHead e m)
    with ((NL +:+ "---" +:+ NL +:+ "**") +:+
          (getTimestamp e (date m) +:+ "**" +:+ formatForwardInfo m
             +:+ NL +:+ NL +:+ renderBody m))
    by (unfold renderHead; rewrite !append_assoc; reflexivity).
  apply (shaped_proceed e t m _ [] [] kinds); [reflexivity | constructor|].
  destruct Hs as [Htasks Hrec]. split; [exact Htasks|].
  constructor; [exact I | exact Hrec].
Qed.

Lemma pushSaved_types (f : Fetch) (saved : option string)
    (atts : list AttachmentEntry) (done : list Kind) :
  map type atts `sublist_of` map label done ->
  map type (pushSaved f saved atts) `sublist_of` map label (done ++ [f_kind f]).
Proof.
  intros Hsub. unfold pushSaved. rewrite map_app.
  destruct (JS.truthy saved).
  - rewrite map_app. apply sublist_app; [exact Hsub | reflexivity].
  - now apply sublist_inserts_r.
Qed.

Lemma shaped_step (e : Env) (ev : Event) (s : State) :
  shaped s -> shaped (step e ev s).
Proof.
  intros Hs. destruct ev as [ctx|i o|i ok]; cbn [step].
  - unfold onMessage.
    destruct (from_id ctx) as [id|]; [|exact Hs].
    destruct (String.eqb _ ""); [exact Hs|].
    destruct (negb _); [exact Hs|].
    destruct (message ctx) as [m|]; [|exact Hs].
    unfold processQueue. destruct (_ || _); [exact Hs|].
    now apply shaped_drain.
  - destruct (suspended s !! i) as [tk|] eqn:Hi; [|exact Hs].
    destruct (await tk) as [f fileName rest| |] eqn:Haw; try exact Hs.
    destruct Hs as [Htasks Hrec].
    pose proof (Forall_lookup_1 _ _ _ _ Htasks Hi) as [[md Hmd] Hshape].
    rewrite Haw in Hshape. destruct Hshape as (done & Hk & Hsub).
    assert (H0 : Forall taskShape (delete i (suspended s))) by now apply Forall_delete.
    destruct o; cbn [downloadFile]; rewrite ?Hmd;
      try (apply (shaped_proceed e _ _ md _ (done ++ [f_kind f]) rest);
           [ now rewrite <- app_assoc
           | now apply pushSaved_types
           | split; [exact H0 | exact Hrec] ]).
    split; [|exact Hrec]. cbn.
    apply Forall_app. split; [exact H0|].
    constructor; [|constructor]. split; cbn [await attachments markdownContent].
    + eauto.
    + rewrite Hk, map_app. now apply sublist_inserts_r.
  - destruct (suspended s !! i) as [tk|] eqn:Hi; [|exact Hs].
    destruct (await tk); try exact Hs.
    destruct Hs as [Htasks Hrec].
    assert (H0 : shaped (set_suspended (delete i (suspended s)) s)).
    { split; [now apply Forall_delete | exact Hrec]. }
    destruct ok; [now apply shaped_drain | exact H0].
Qed.

Lemma shaped_run (sched : list (Env * Event)) (s : State) :
  shaped s -> shaped (run sched s).
Proof.
  revert s. induction sched as [|[e ev] rest IH]; intros s Hs; cbn [run]; auto.
  apply IH, shaped_step, Hs.
Qed.

Lemma shaped_initial : shaped initial.
Proof. split; constructor. Qed.

End ShapeFacts.

Section ShapeTheorems.
Context `{Deployment}.

(** X10: in every reachable state the entries a suspended task has
    pushed carry their kinds' labels in the order of the branches of
    [processMessage] (photo, document, video, audio, voice, video note),
    at most one entry per kind: the Attachments section lists the
    fetched attachments in that order. *)
Theorem attachments_in_branch_order (sched : list (Env * Event)) :
  Forall (fun tk => map type (attachments tk) `sublist_of`
                      ["Photo"; "Document"; "Video"; "Audio"; "Voice"; "Video Note"])
    (suspended (run sched initial)).
Proof.
  destruct (shaped_run sched initial shaped_initial) as [Htasks _].
  eapply Forall_impl; [exact Htasks|]. cbn beta.
  intros tk [_ Hshape]. change (map type (attachments tk) `sublist_of` map label kinds).
  destruct (await tk) as [f fileName rest| |]; try exact Hshape.
  destruct Hshape as (done & -> & Hsub). rewrite map_app.
  now apply sublist_inserts_r.
Qed.

(** X11: every record handed to [fs.appendFileSync], in every history,
    starts with a line feed, the separator line and the opening of the
    bolded timestamp, and ends with a line feed, the separator line and
    one empty line. *)
Theorem records_delimited (sched : list (Env * Event)) :
  recordsDelimited (history (run sched initial)).
Proof.
  destruct (shaped_run sched initial shaped_initial) as [_ Hrec].
  unfold recordsDelimited, history in *. rewrite Forall_forall in Hrec |- *.
  intros a Ha. apply Hrec. apply list_elem_of_In, in_rev, list_elem_of_In, Ha.
Qed.

End ShapeTheorems.

(** ** Replies and writes *)

Lemma Acked_replies (l : list Action) :
  Acked l -> replyTickets l = appendTickets l.
Proof. induction 1; cbn; congruence. Qed.

Lemma Acked_after_reply (l1 l2 : list Action) (t : nat) :
  Acked (l1 ++ Replied t :: l2) ->
  exists f c ok l2', l2 = Appended t f c ok :: l2'.
Proof.
  intros HA. remember (l1 ++ Replied t :: l2) as l eqn:El.
  revert l1 El. induction HA as [|t' m l HA IH|t' i n l HA IH|t' f' c' ok' l HA IH];
    intros l1 El.
  - now destruct l1.
  - destruct l1 as [|a l1]; [discriminate|]. injection El as <- El. eauto.
  - destruct l1 as [|a l1]; [discriminate|]. injection El as <- El. eauto.
  - destruct l1 as [|a [|b l1]].
    + injection El as <- <-. eauto.
    + discriminate.
    + injection El as <- <- El. eauto.
Qed.

Lemma replyTickets_app (l1 l2 : list Action) :
  replyTickets (l1 ++ l2) = replyTickets l1 ++ replyTickets l2.
Proof.
  induction l1 as [|a l1 IH]; [reflexivity|].
  destruct a; cbn; now rewrite IH.
Qed.

Lemma replyTickets_rev (l : list Action) :
  replyTickets (rev l) = rev (replyTickets l).
Proof.
  induction l as [|a l IH]; [reflexivity|].
  cbn [rev]. rewrite replyTickets_app, IH.
  destruct a; cbn; now rewrite ?app_nil_r.
Qed.

Section ReplyFacts.
Context `{Deployment}.

(** X12: the bot never acknowledges a message it did not try to write:
    in every history each call of [ctx.reply] directly follows the
    hand-over of that message's record to [fs.appendFileSync], and the
    messages replied to are, in order, exactly those whose record was
    handed over, each once. *)
Theorem no_reply_without_write (sched : list (Env * Event)) :
  (forall pre post t,
     history (run sched initial) = pre ++ Replied t :: post ->
     exists pre' file content ok, pre = pre' ++ [Appended t file content ok]) /\
  replyTickets (history (run sched initial)) =
    appendTickets (history (run sched initial)) /\
  StronglySorted lt (replyTickets (history (run sched initial))).
Proof.
  pose proof (Acked_run sched initial Acked_nil) as HA.
  split; [|split].
  - intros pre post t Hhist.
    assert (Htrace : trace (run sched initial) = rev post ++ Replied t :: rev pre).
    { rewrite <- (rev_involutive (trace _)). fold (history (run sched initial)).
      rewrite Hhist, rev_app_distr. cbn [rev]. now rewrite <- app_assoc. }
    rewrite Htrace in HA.
    destruct (Acked_after_reply _ _ _ HA) as (f & c & ok & l2' & Hl2).
    exists (rev l2'), f, c, ok.
    rewrite <- (rev_involutive pre), Hl2. reflexivity.
  - unfold history. rewrite replyTickets_rev, appendTickets_rev.
    now rewrite (Acked_replies _ HA).
  - unfold history. rewrite replyTickets_rev, (Acked_replies _ HA).
    exact (StronglySorted_rev _ _
             (inv_app_sorted _ (Inv_run sched initial Inv_initial))).
Qed.

(** X13: the busy flag is set whenever a message is queued or in flight:
    in every reachable state an unset flag means an empty queue and no
    suspended task, and a suspended task means a set flag. *)
Theorem idle_means_nothing_pending (sched : list (Env * Event)) :
  let s := run sched initial in
  (isProcessing s = false -> messageQueue s = [] /\ suspended s = []) /\
  (suspended s <> [] -> isProcessing s = true).
Proof.
  intros s. pose proof (Inv_run sched initial Inv_initial) as HI. fold s in HI.
  split.
  - intros Hidle. split; [exact (inv_idle s HI Hidle)|].
    exact (no_task_when_idle s HI Hidle).
  - intros Hbusy. destruct (isProcessing s) eqn:E; [reflexivity|].
    now rewrite (no_task_when_idle s HI E) in Hbusy.
Qed.

End ReplyFacts.

(** ** Schedules without an accepted message *)

Section PristineFacts.
Context `{Deployment}.

Lemma pristine_step (n : nat) (e : Env) (ev : Event) (s : State) :
  pristine s -> accepted n [(e, ev)] = [] -> pristine (step e ev s).
Proof.
  intros Hs Hacc. pose proof Hs as (Hq & Hp & Hsusp & Htr & Hn & Ha).
  destruct ev as [ctx|i o|i ok]; cbn [step].
  - unfold onMessage. cbn [accepted] in Hacc. unfold Spec.senderId in Hacc.
    destruct (from_id ctx) as [id|]; [|exact Hs].
    destruct (String.eqb_spec (JS.toStringZ id) ""); [exact Hs|].
    destruct (String.eqb_spec (JS.toStringZ id) ALLOWED_USER_ID) as [Heq|Hne];
      cbn [negb]; [|exact Hs].
    destruct (message ctx) as [m|]; [|exact Hs].
    cbn in Hacc. rewrite bool_decide_eq_true_2 in Hacc by congruence.
    discriminate.
  - now rewrite Hsusp.
  - now rewrite Hsusp.
Qed.

Lemma pristine_run (n : nat) (sched : list (Env * Event)) (s : State) :
  pristine s -> accepted n sched = [] -> pristine (run sched s).
Proof.
  revert n s. induction sched as [|[e ev] rest IH]; intros n s Hs Hacc; [exact Hs|].
  rewrite accepted_cons in Hacc. apply app_eq_nil in Hacc as [H1 H2].
  cbn [run]. eapply IH; [eapply pristine_step; eauto | exact H2].
Qed.

(** X14: as long as no inbound event comes with the allowed sender id
    and a payload, nothing happens, whatever else the event loop
    delivers: the queue stays empty, the busy flag unset, no task is
    suspended, the history is empty (no fetch, no write, no reply), and
    no note file or attachment file exists. *)
Theorem nothing_without_accepted (sched : list (Env * Event)) :
  accepted 0 sched = [] ->
  let s := run sched initial in
  messageQueue s = [] /\ isProcessing s = false /\ suspended s = [] /\
  history s = [] /\ notes s = ∅ /\ attachmentFiles s = ∅.
Proof.
  intros Hacc s.
  assert (Hinit : pristine initial) by (repeat split).
  destruct (pristine_run 0 sched initial Hinit Hacc) as (Hq & Hp & Hs & Ht & Hn & Ha).
  fold s in Hq, Hp, Hs, Ht, Hn, Ha. unfold history. rewrite Ht. auto 10.
Qed.

End PristineFacts.

Lemma nothing_without_accepted_witness :
  history (@run utcHost Scenario.strangersOnly initial) = [] /\
  notes (@run utcHost Scenario.strangersOnly initial) = ∅.
Proof.
  destruct (@nothing_without_accepted utcHost Scenario.strangersOnly eq_refl)
    as (_ & _ & _ & Hh & Hn & _).
  split; [exact Hh | exact Hn].
Defined.

(** ** Every started message reaches the writer *)

Lemma starts_rev (l : list Action) : starts (rev l) = rev (starts l).
Proof.
  induction l as [|a l IH]; [reflexivity|].
  cbn [rev]. rewrite starts_app, IH.
  destruct a; cbn; now rewrite ?app_nil_r.
Qed.

Section AccountedFacts.
Context `{Deployment}.

Lemma accounted_proceed (e : Env) (t : nat) (m : IncomingMessage) (md : string)
    (atts : list AttachmentEntry) (ks : list Kind) (s : State) :
  suspended s = [] ->
  map fst (starts (trace s)) = t :: appendTickets (trace s) ->
  accounted (proceed e t m md atts ks s).
Proof.
  intros Hnone Hs. unfold accounted, proceed, appendToNotes.
  destruct (nextFetch m ks) as [[f rest]|]; [|destruct (appendSucceeds e)];
    cbn; rewrite Hnone; cbn; exact Hs.
Qed.

Lemma accounted_drain (e : Env) (s : State) :
  suspended s = [] -> accounted s -> accounted (drain e s).
Proof.
  intros Hnone Hs. unfold accounted in Hs. rewrite Hnone in Hs. cbn in Hs.
  unfold drain. destruct (messageQueue s) as [|[t m] rest].
  - unfold accounted. cbn. now rewrite Hnone.
  - apply accounted_proceed; cbn; [exact Hnone | now rewrite Hs].
Qed.

Lemma accounted_step (e : Env) (ev : Event) (s : State) :
  Inv s -> accounted s -> accounted (step e ev s).
Proof.
  intros HI Hs. destruct ev as [ctx|i o|i ok]; cbn [step].
  - unfold onMessage.
    destruct (from_id ctx) as [id|]; [|exact Hs].
    destruct (String.eqb _ ""); [exact Hs|].
    destruct (negb _); [exact Hs|].
    destruct (message ctx) as [m|]; [|exact Hs].
    unfold processQueue. cbn [isProcessing push].
    destruct (isProcessing s) eqn:Hproc; cbn [orb]; [exact Hs|].
    destruct (bool_decide _); [exact Hs|].
    apply accounted_drain; [exact (no_task_when_idle s HI Hproc) | exact Hs].
  - destruct (suspended s !! i) as [tk|] eqn:Hi; [|exact Hs].
    destruct (only_task s i tk HI Hi) as [Hsusp ->].
    destruct (await tk) as [f fileName rest| |] eqn:Haw; try exact Hs.
    unfold accounted in Hs. rewrite Hsusp in Hs. cbn in Hs. rewrite Haw in Hs.
    cbn in Hs.
    destruct o; cbn [downloadFile];
      try (apply accounted_proceed; cbn; [now rewrite Hsusp | exact Hs]).
    unfold accounted. cbn. rewrite Hsusp. cbn. exact Hs.
  - destruct (suspended s !! i) as [tk|] eqn:Hi; [|exact Hs].
    destruct (only_task s i tk HI Hi) as [Hsusp ->].
    destruct (await tk) eqn:Haw; try exact Hs.
    unfold accounted in Hs. rewrite Hsusp in Hs. cbn in Hs. rewrite Haw in Hs.
    cbn in Hs.
    assert (H0 : accounted (set_suspended (delete 0 (suspended s)) s)).
    { unfold accounted. cbn. rewrite Hsusp. cbn. exact Hs. }
    destruct ok; [|exact H0].
    apply accounted_drain; [cbn; now rewrite Hsusp | exact H0].
Qed.

Lemma accounted_run (sched : list (Env * Event)) (s : State) :
  Inv s -> accounted s -> accounted (run sched s).
Proof.
  revert s. induction sched as [|[e ev] rest IH]; intros s HI Hs; cbn [run]; auto.
  apply IH; [now apply Inv_step | now apply accounted_step].
Qed.

(** X15: in every reachable state the messages taken into processing
    are, in order, those whose record was handed to [fs.appendFileSync],
    followed by the one message, if any, whose task is still suspended
    before that point: no started message is passed over by the writer,
    and none is written that was not started. *)
Theorem started_messages_written (sched : list (Env * Event)) :
  let s := run sched initial in
  map fst (starts (history s)) =
    appendTickets (history s) ++ unwritten (suspended s).
Proof.
  intros s.
  pose proof (Inv_run sched initial Inv_initial) as HI. fold s in HI.
  assert (Hacc : accounted s).
  { apply accounted_run; [exact Inv_initial | reflexivity]. }
  unfold accounted in Hacc. unfold history.
  rewrite starts_rev, map_rev, Hacc, rev_app_distr, appendTickets_rev.
  f_equal. pose proof (inv_one s HI) as Hone.
  destruct (suspended s) as [|tk [|tk' l]]; cbn in Hone |- *; try lia; auto.
  now destruct (await tk).
Qed.

End AccountedFacts.

(** ** The queue drains when the I/O settles *)

Lemma nextFetch_shorter (m : IncomingMessage) (ks : list Kind) (f : Fetch)
    (rest : list Kind) :
  nextFetch m ks = Some (f, rest) -> length rest < length ks.
Proof.
  intros Hn. destruct (nextFetch_split _ _ _ _ Hn) as [skipped ->].
  rewrite length_app. cbn. lia.
Qed.

Section DrainFacts.
Context `{Deployment}.

Lemma proceed_task (e : Env) (t : nat) (m : IncomingMessage) (md : string)
    (atts : list AttachmentEntry) (ks : list Kind) (s : State) :
  exists tk,
    suspended (proceed e t m md atts ks s) = suspended s ++ [tk] /\
    messageQueue (proceed e t m md atts ks s) = messageQueue s /\
    isProcessing (proceed e t m md atts ks s) = isProcessing s /\
    match await tk with
    | AwaitDownload _ _ rest => length rest < length ks
    | AwaitReply => True
    | AwaitNever => False
    end.
Proof.
  unfold proceed, appendToNotes.
  destruct (nextFetch m ks) as [[f rest]|] eqn:En; [|destruct (appendSucceeds e)];
    eexists; (split; [reflexivity|]); (split; [reflexivity|]);
    (split; [reflexivity|]); cbn; auto.
  eapply nextFetch_shorter, En.
Qed.

Lemma drain_task (e : Env) (s : State) :
  suspended s = [] ->
  (messageQueue s = [] /\ isProcessing (drain e s) = false /\
   suspended (drain e s) = [] /\ messageQueue (drain e s) = []) \/
  (exists tk,
     suspended (drain e s) = [tk] /\ isProcessing (drain e s) = isProcessing s /\
     S (length (messageQueue (drain e s))) = length (messageQueue s) /\
     match await tk with
     | AwaitDownload _ _ rest => length rest < 6
     | AwaitReply => True
     | AwaitNever => False
     end).
Proof.
  intros Hnone. unfold drain. destruct (messageQueue s) as [|[t m] rest] eqn:Eq.
  - left. cbn. auto.
  - right. unfold processMessage.
    destruct (proceed_task e t m (renderHead e m) [] kinds
                (record (Started t m) (set_queue rest s)))
      as (tk & -> & -> & -> & Haw).
    exists tk. cbn. rewrite Hnone. auto.
Qed.

Lemma healthy_step (e : Env) (ev : Event) (s : State) :
  healthy s -> benign ev = true -> healthy (step e ev s).
Proof.
  intros [HI Hbusy] Hev. split; [now apply Inv_step|].
  destruct ev as [ctx|i o|i ok]; cbn [step].
  - unfold onMessage.
    destruct (from_id ctx) as [id|]; [|exact Hbusy].
    destruct (String.eqb _ ""); [exact Hbusy|].
    destruct (negb _); [exact Hbusy|].
    destruct (message ctx) as [m|]; [|exact Hbusy].
    unfold processQueue. cbn [isProcessing push].
    destruct (isProcessing s) eqn:Hproc; cbn [orb];
      [intros _; exact (Hbusy eq_refl)|].
    destruct (bool_decide _); [cbn; congruence|].
    destruct (drain_task e (set_isProcessing true (push m s))
                (no_task_when_idle s HI Hproc))
      as [(_ & -> & _) | (tk & -> & _ & _ & Haw)]; [discriminate|].
    intros _. exists tk. split; [reflexivity|]. intros E. now rewrite E in Haw.
  - destruct (suspended s !! i) as [tk|] eqn:Hi; [|exact Hbusy].
    destruct (only_task s i tk HI Hi) as [Hsusp ->].
    destruct (await tk) as [f fileName rest| |] eqn:Haw; try exact Hbusy.
    cbn in Hev.
    destruct o; try discriminate Hev; cbn [downloadFile]; intros _;
      match goal with
      | |- context [proceed ?e ?t ?m ?md ?a ?k ?s0] =>
          destruct (proceed_task e t m md a k s0) as (tk' & -> & _ & _ & Haw')
      end; cbn; rewrite Hsusp; cbn; exists tk';
      (split; [reflexivity|]); intros E; now rewrite E in Haw'.
  - destruct (suspended s !! i) as [tk|] eqn:Hi; [|exact Hbusy].
    destruct (only_task s i tk HI Hi) as [Hsusp ->].
    destruct (await tk) eqn:Haw; try exact Hbusy.
    cbn in Hev. subst ok.
    destruct (drain_task e (set_suspended (delete 0 (suspended s)) s))
      as [(_ & -> & _) | (tk' & -> & _ & _ & Haw')];
      [cbn; now rewrite Hsusp | discriminate |].
    intros _. exists tk'. split; [reflexivity|]. intros E. now rewrite E in Haw'.
Qed.

Lemma healthy_run (sched : list (Env * Event)) (s : State) :
  healthy s -> Forall (fun x => benign (snd x) = true) sched ->
  healthy (run sched s).
Proof.
  revert s. induction sched as [|[e ev] rest IH]; intros s Hs Hb; [exact Hs|].
  apply Forall_cons in Hb as [Hev Hb]. cbn [run].
  apply IH; [now apply healthy_step | exact Hb].
Qed.

Lemma settle_benign (e : Env) (o : Transfer) (s : State) :
  healthy s -> handled o = true -> healthy (settle e o s).
Proof.
  intros Hs Ho. unfold settle.
  destruct (suspended s) as [|tk l]; [exact Hs|].
  destruct (await tk); [| |exact Hs]; now apply healthy_step.
Qed.

Lemma step_transfer (e : Env) (o : Transfer) (s : State) (tk : Task)
    (f : Fetch) (fileName : string) (rest : list Kind) :
  suspended s = [tk] -> await tk = AwaitDownload f fileName rest ->
  handled o = true ->
  exists saved s1,
    step e (TransferSettled 0 o) s =
      proceed e (ticket tk) (task_message tk) (markdownContent tk)
        (pushSaved f saved (attachments tk)) rest s1 /\
    (saved = None \/ saved = Some fileName) /\
    suspended s1 = [] /\ messageQueue s1 = messageQueue s /\
    isProcessing s1 = isProcessing s /\ trace s1 = trace s /\
    notes s1 = notes s.
Proof.
  intros Hsusp Haw Ho. cbn [step]. rewrite Hsusp. cbn [lookup list_lookup].
  rewrite Haw.
  destruct o; try discriminate Ho; cbn [downloadFile];
    eexists; eexists; (split; [reflexivity|]); cbn; auto 10.
Qed.

Lemma step_reply (e : Env) (s : State) (tk : Task) :
  suspended s = [tk] -> await tk = AwaitReply ->
  exists s0,
    step e (ReplySettled 0 true) s = drain e s0 /\
    suspended s0 = [] /\ messageQueue s0 = messageQueue s /\
    isProcessing s0 = isProcessing s.
Proof.
  intros Hsusp Haw. cbn [step]. rewrite Hsusp. cbn [lookup list_lookup].
  rewrite Haw. eexists. split; [reflexivity|]. cbn. auto.
Qed.

Lemma settle_progress (e : Env) (o : Transfer) (s : State) :
  healthy s -> handled o = true -> isProcessing s = true ->
  work (settle e o s) < work s.
Proof.
  intros [HI Hbusy] Ho Hproc.
  destruct (Hbusy Hproc) as (tk & Hsusp & Hnever).
  assert (Hwork : work s = 7 * length (messageQueue s) +
                  match await tk with
                  | AwaitDownload _ _ rest => 2 + length rest
                  | AwaitReply => 1
                  | AwaitNever => 0
                  end).
  { unfold work. now rewrite Hsusp. }
  rewrite Hwork. unfold settle. rewrite Hsusp.
  destruct (await tk) as [f fileName rest| |] eqn:Haw; [| |contradiction].
  - destruct (step_transfer e o s tk f fileName rest Hsusp Haw Ho)
      as (saved & s1 & -> & _ & Hs1 & Hq1 & _).
    destruct (proceed_task e (ticket tk) (task_message tk) (markdownContent tk)
                (pushSaved f saved (attachments tk)) rest s1)
      as (tk' & Hs' & Hq' & _ & Haw').
    unfold work. rewrite Hs', Hq', Hs1, Hq1. cbn [app].
    destruct (await tk'); try contradiction; lia.
  - destruct (step_reply e s tk Hsusp Haw) as (s0 & -> & Hs0 & Hq0 & _).
    destruct (drain_task e s0 Hs0)
      as [(Hq & _ & Hs' & Hq') | (tk' & Hs' & _ & Hq' & Haw')].
    + unfold work. rewrite Hs', Hq'. cbn. lia.
    + unfold work. rewrite Hs', <- Hq0, <- Hq'.
      destruct (await tk'); try contradiction; lia.
Qed.

Lemma settle_idle (e : Env) (o : Transfer) (s : State) :
  Inv s -> isProcessing s = false -> settle e o s = s.
Proof.
  intros HI Hidle. unfold settle. now rewrite (no_task_when_idle s HI Hidle).
Qed.

Lemma settleAll_idle (l : list (Env * Transfer)) (s : State) :
  healthy s -> Forall (fun x => handled (snd x) = true) l ->
  work s <= length l ->
  healthy (settleAll l s) /\ isProcessing (settleAll l s) = false.
Proof.
  revert s. induction l as [|[e o] l IH]; intros s Hs Hl Hwork.
  - split; [exact Hs|]. cbn. destruct (isProcessing s) eqn:Hproc; [|reflexivity].
    destruct Hs as [HI Hbusy]. destruct (Hbusy Hproc) as (tk & Hsusp & Hnever).
    unfold work in Hwork. rewrite Hsusp in Hwork. cbn in Hwork.
    destruct (await tk); try contradiction; lia.
  - apply Forall_cons in Hl as [Ho Hl]. cbn in Ho. cbn [settleAll].
    destruct (isProcessing s) eqn:Hproc.
    + apply IH; [now apply settle_benign | exact Hl|].
      pose proof (settle_progress e o s Hs Ho Hproc). cbn [length] in Hwork. lia.
    + rewrite (settle_idle e o s (proj1 Hs) Hproc).
      assert (Hw0 : work s = 0).
      { unfold work. rewrite (inv_idle s (proj1 Hs) Hproc),
          (no_task_when_idle s (proj1 Hs) Hproc). reflexivity. }
      apply IH; [exact Hs | exact Hl | rewrite Hw0; lia].
Qed.

Lemma settle_history (e : Env) (o : Transfer) (s : State) :
  Inv s -> accounted s -> Acked (trace s) ->
  starts (history (settle e o s)) ++ messageQueue (settle e o s) =
    starts (history s) ++ messageQueue s /\
  accounted (settle e o s) /\ Acked (trace (settle e o s)).
Proof.
  intros HI Hacc HA. unfold settle.
  destruct (suspended s) as [|tk l]; [auto|].
  destruct (await tk); [| |auto].
  - destruct (fifo_step e (TransferSettled 0 o) s) as [Hf _].
    cbn [accepted] in Hf. rewrite !app_nil_r in Hf.
    split; [exact Hf|]. split; [now apply accounted_step | now apply Acked_step].
  - destruct (fifo_step e (ReplySettled 0 true) s) as [Hf _].
    cbn [accepted] in Hf. rewrite !app_nil_r in Hf.
    split; [exact Hf|]. split; [now apply accounted_step | now apply Acked_step].
Qed.

Lemma settleAll_history (l : list (Env * Transfer)) (s : State) :
  healthy s -> Forall (fun x => handled (snd x) = true) l ->
  accounted s -> Acked (trace s) ->
  starts (history (settleAll l s)) ++ messageQueue (settleAll l s) =
    starts (history s) ++ messageQueue s /\
  accounted (settleAll l s) /\ Acked (trace (settleAll l s)).
Proof.
  revert s. induction l as [|[e o] l IH]; intros s Hs Hl Hacc HA; [auto|].
  apply Forall_cons in Hl as [Ho Hl]. cbn in Ho. cbn [settleAll].
  destruct (settle_history e o s (proj1 Hs) Hacc HA) as (Hf & Hacc' & HA').
  destruct (IH _ (settle_benign e o s Hs Ho) Hl Hacc' HA') as (Hf' & Hacc'' & HA'').
  rewrite Hf', Hf. auto.
Qed.

(** X16: no accepted message is dropped. After any schedule in which no
    write stream failed and no reply was rejected, settle the I/O that
    the suspended task waits for, again and again, each transfer with
    any outcome that the source handles (finished, link rejected,
    request error) and each reply fulfilled: after at most seven
    settlements per queued message the queue is empty, the busy flag
    unset and no task suspended, and the accepted messages have been
    taken into processing, handed to the writer and replied to, each
    once and in arrival order. *)
Theorem queue_drains (sched : list (Env * Event)) (l : list (Env * Transfer)) :
  Forall (fun x => benign (snd x) = true) sched ->
  Forall (fun x => handled (snd x) = true) l ->
  work (run sched initial) <= length l ->
  let s := settleAll l (run sched initial) in
  isProcessing s = false /\ messageQueue s = [] /\ suspended s = [] /\
  starts (history s) = accepted 0 sched /\
  appendTickets (history s) = map fst (accepted 0 sched) /\
  replyTickets (history s) = map fst (accepted 0 sched).
Proof.
  intros Hsched Hl Hwork s.
  assert (Hinit : healthy initial).
  { split; [exact Inv_initial | discriminate]. }
  pose proof (healthy_run sched initial Hinit Hsched) as Hs0.
  destruct (settleAll_idle l _ Hs0 Hl Hwork) as [Hs Hidle]. fold s in Hs, Hidle.
  assert (Hacc0 : accounted (run sched initial)).
  { apply accounted_run; [exact Inv_initial | reflexivity]. }
  pose proof (Acked_run sched initial Acked_nil) as HA0.
  destruct (settleAll_history l _ Hs0 Hl Hacc0 HA0) as (Hf & Hacc & HA).
  fold s in Hf, Hacc, HA.
  pose proof (inv_idle s (proj1 Hs) Hidle) as Hq.
  pose proof (no_task_when_idle s (proj1 Hs) Hidle) as Hnone.
  rewrite (fifo_run sched initial) in Hf. cbn in Hf.
  rewrite Hq, app_nil_r in Hf.
  unfold accounted in Hacc. rewrite Hnone in Hacc. cbn in Hacc.
  assert (Happ : appendTickets (history s) = map fst (accepted 0 sched)).
  { rewrite <- Hf. unfold history.
    now rewrite appendTickets_rev, starts_rev, map_rev, Hacc. }
  repeat split; auto.
  rewrite <- Happ. unfold history.
  now rewrite replyTickets_rev, appendTickets_rev, (Acked_replies _ HA).
Qed.

End DrainFacts.

Lemma queue_drains_witness :
  map ticketOf
    (history (@settleAll utcHost Scenario.settlements
                (@run utcHost Scenario.twoArrivals initial)))
  = [0; 0; 0; 0; 1; 1; 1]%nat /\
  isProcessing (@settleAll utcHost Scenario.settlements
                  (@run utcHost Scenario.twoArrivals initial)) = false.
Proof.
  split; [vm_compute; reflexivity|].
  refine (proj1 (@queue_drains utcHost Scenario.twoArrivals Scenario.settlements
                   _ _ _)).
  - repeat constructor.
  - repeat constructor.
  - vm_compute. lia.
Defined.

(** ** The archive only grows *)

Lemma grows_refl (n : gmap string string) : grows n n.
Proof. intros file c Hc. exists "". now rewrite append_empty_r. Qed.

Lemma grows_trans (a b c : gmap string string) : grows a b -> grows b c -> grows a c.
Proof.
  intros Hab Hbc file x Hx.
  destruct (Hab file x Hx) as [s1 H1]. destruct (Hbc file _ H1) as [s2 H2].
  exists (s1 +:+ s2). now rewrite <- append_assoc.
Qed.

Lemma grows_appendFile (file data : string) (n : gmap string string) :
  grows n (appendFile file data n).
Proof.
  intros g c Hc. unfold appendFile.
  destruct (decide (file = g)) as [->|Hne].
  - exists data. now rewrite lookup_insert_eq, Hc.
  - exists "". now rewrite lookup_insert_ne, append_empty_r.
Qed.

Section GrowthFacts.
Context `{Deployment}.

Lemma grows_proceed (e : Env) (t : nat) (m : IncomingMessage) (md : string)
    (atts : list AttachmentEntry) (ks : list Kind) (s : State) :
  grows (notes s) (notes (proceed e t m md atts ks s)).
Proof.
  unfold proceed, appendToNotes.
  destruct (nextFetch m ks) as [[f rest]|]; [|destruct (appendSucceeds e)]; cbn;
    auto using grows_refl, grows_appendFile.
Qed.

Lemma grows_drain (e : Env) (s : State) : grows (notes s) (notes (drain e s)).
Proof.
  unfold drain. destruct (messageQueue s) as [|[t m] rest]; [apply grows_refl|].
  apply (grows_proceed e t m _ [] kinds (record (Started t m) (set_queue rest s))).
Qed.

Lemma grows_step (e : Env) (ev : Event) (s : State) :
  grows (notes s) (notes (step e ev s)).
Proof.
  destruct ev as [ctx|i o|i ok]; cbn [step].
  - unfold onMessage.
    destruct (from_id ctx) as [id|]; [|apply grows_refl].
    destruct (String.eqb _ ""); [apply grows_refl|].
    destruct (negb _); [apply grows_refl|].
    destruct (message ctx) as [m|]; [|apply grows_refl].
    unfold processQueue. destruct (_ || _); [apply grows_refl|].
    apply (grows_drain e (set_isProcessing true (push m s))).
  - destruct (suspended s !! i) as [tk|]; [|apply grows_refl].
    destruct (await tk) as [f fileName rest| |]; try apply grows_refl.
    destruct o; cbn [downloadFile]; try apply grows_refl;
      match goal with
      | |- context [proceed ?e ?t ?m ?md ?a ?k ?s0] =>
          apply (grows_proceed e t m md a k s0)
      end.
  - destruct (suspended s !! i) as [tk|]; [|apply grows_refl].
    destruct (await tk); try apply grows_refl.
    destruct ok; [|apply grows_refl].
    apply (grows_drain e (set_suspended (delete i (suspended s)) s)).
Qed.

(** X17: the archive is append-only. From any state and along any
    schedule, every note file that exists keeps existing and its content
    at the end is its content at the start followed by what was appended
    in between: nothing written is ever changed, truncated or deleted. *)
Theorem notes_append_only (sched : list (Env * Event)) (s : State) :
  grows (notes s) (notes (run sched s)).
Proof.
  revert s. induction sched as [|[e ev] rest IH]; intros s; cbn [run].
  - apply grows_refl.
  - eapply grows_trans; [apply grows_step | apply IH].
Qed.

(** X18: a transfer that fails where the source handles the failure (the
    link is rejected, or the request reports an error) costs the message
    only that attachment: no file is left under the generated name, the
    failure is logged, no entry is pushed, and the task goes on to the
    next attachment branch or, after the last one, to the write and the
    reply, under the same ticket and with the markdown built so far. *)
Theorem handled_failure_skips_attachment (e : Env) (o : Transfer) (s : State)
    (tk : Task) (f : Fetch) (fileName : string) (rest : list Kind) :
  o = LinkRejected \/ o = RequestError ->
  suspended s = [tk] -> await tk = AwaitDownload f fileName rest ->
  fileName ∉ attachmentFiles s ->
  let s' := step e (TransferSettled 0 o) s in
  (fileName ∉ attachmentFiles s') /\
  console s' = (if bool_decide (nextFetch (task_message tk) rest = None)
                   && negb (appendSucceeds e)
                then [NotesWriteError] else [])
               ++ DownloadFailed fileName :: console s /\
  exists tk',
    suspended s' = [tk'] /\ ticket tk' = ticket tk /\
    attachments tk' = attachments tk /\
    match nextFetch (task_message tk) rest with
    | Some (f', rest') =>
        await tk' = AwaitDownload f'
                      (generateFileName e (f_baseName f') (f_extension f')) rest' /\
        markdownContent tk' = markdownContent tk
    | None =>
        await tk' = AwaitReply /\
        markdownContent tk' = renderTail (markdownContent tk) (attachments tk) /\
        trace s' =
          Replied (ticket tk)
            :: Appended (ticket tk) (getDayNotesFile e)
                 (renderTail (markdownContent tk) (attachments tk) +:+ NL)
                 (appendSucceeds e)
            :: trace s
    end.
Proof.
  intros Ho Hsusp Haw Hfresh s'. subst s'. cbn [step].
  rewrite Hsusp. cbn [lookup list_lookup]. rewrite Haw.
  assert (Hgone : fileName ∉ ({[fileName]} ∪ attachmentFiles s) ∖ {[fileName]}).
  { rewrite elem_of_difference, elem_of_singleton. now intros [_ []]. }
  destruct Ho as [-> | ->]; cbn [downloadFile];
    unfold proceed, pushSaved, appendToNotes; cbn [JS.truthy];
    destruct (nextFetch (task_message tk) rest) as [[f' rest']|];
    try destruct (appendSucceeds e); cbn;
    (split; [assumption|]); (split; [reflexivity|]);
    eexists; (split; [reflexivity|]); cbn; auto.
Qed.

End GrowthFacts.

Lemma handled_failure_skips_attachment_witness :
  exists tk',
    suspended (@run utcHost
                 [(Sample.morning,
                   Inbound (Sample.fromOwner (Sample.withDocument Sample.planDocument)));
                  (Sample.later, TransferSettled 0 RequestError)]
                 initial) = [tk'] /\
    attachments tk' = [] /\ await tk' = AwaitReply.
Proof.
  destruct (@handled_failure_skips_attachment utcHost Sample.later RequestError
              (@run utcHost
                 [(Sample.morning,
                   Inbound (Sample.fromOwner (Sample.withDocument Sample.planDocument)))]
                 initial)
              _ _ _ _ (or_intror eq_refl) eq_refl eq_refl
              ltac:(apply (bool_decide_unpack _); vm_compute; reflexivity))
    as (_ & _ & tk' & Hs & _ & Hatts & Haw & _).
  exists tk'. split; [exact Hs|]. split; [exact Hatts | exact Haw].
Defined.

(** ** Enqueueing *)

Section EnqueueFacts.
Context `{Deployment}.

(** X19: an inbound event with the allowed sender id and a payload, in
    any reachable state, is pushed with the next ticket. While the loop
    is busy that is all: the message waits at the end of the queue and
    nothing else changes. When the loop is idle the message is taken
    into processing in the same turn: the busy flag is set, the queue is
    empty again, and the one suspended task works on this message. *)
Theorem enqueue_starts_idle_loop (sched : list (Env * Event)) (e : Env)
    (ctx : MessageContext) (m : IncomingMessage) :
  Spec.senderId ctx = Some ALLOWED_USER_ID -> message ctx = Some m ->
  let s := run sched initial in
  let s' := step e (Inbound ctx) s in
  pushed s' = S (pushed s) /\
  (isProcessing s = true ->
     messageQueue s' = messageQueue s ++ [(pushed s, m)] /\
     isProcessing s' = true /\ suspended s' = suspended s /\
     trace s' = trace s /\ notes s' = notes s) /\
  (isProcessing s = false ->
     messageQueue s' = [] /\ isProcessing s' = true /\
     starts (history s') = starts (history s) ++ [(pushed s, m)] /\
     exists tk, suspended s' = [tk] /\ ticket tk = pushed s /\ task_message tk = m).
Proof.
  intros Hid Hm s s'.
  pose proof (Inv_run sched initial Inv_initial) as HI. fold s in HI.
  assert (Hstep : s' = processQueue e (push m s)).
  { subst s'. cbn [step]. unfold onMessage, Spec.senderId in *.
    destruct (from_id ctx) as [id|]; [|discriminate]. cbn in Hid.
    injection Hid as Hid.
    destruct (String.eqb_spec (JS.toStringZ id) "") as [E|_];
      [now apply toStringZ_nonempty in E|].
    rewrite Hid, String.eqb_refl, Hm. reflexivity. }
  rewrite Hstep. unfold processQueue. cbn [isProcessing push].
  destruct (isProcessing s) eqn:Hproc; cbn [orb].
  - split; [reflexivity|]. split; [auto|]. discriminate.
  - pose proof (inv_idle s HI Hproc) as Hq.
    pose proof (no_task_when_idle s HI Hproc) as Hnone.
    rewrite bool_decide_eq_false_2 by (cbn; now destruct (messageQueue s)).
    unfold drain. cbn [messageQueue set_isProcessing push]. rewrite Hq. cbn [app].
    unfold processMessage.
    match goal with
    | |- context [proceed ?e ?t ?m ?md ?a ?k ?s0] =>
        destruct (fifo_proceed e t m md a k s0) as (Hst & Hqq & Hpp);
        destruct (proceed_task e t m md a k s0) as (tk & Hs' & _ & Hbusy & _);
        assert (Hmeta : forall tk0, suspended (proceed e t m md a k s0) = [tk0] ->
                          ticket tk0 = t /\ task_message tk0 = m)
    end.
    { unfold proceed, appendToNotes.
      destruct (nextFetch m kinds) as [[f rest]|]; [|destruct (appendSucceeds e)];
        cbn; rewrite Hnone; cbn; intros tk0 [= <-]; auto. }
    cbn [suspended record set_queue set_isProcessing push] in Hs'.
    rewrite Hnone in Hs'. cbn [app] in Hs'.
    rewrite Hst, Hqq, Hpp, Hbusy. cbn.
    split; [reflexivity|]. split; [discriminate|]. intros _.
    split; [reflexivity|]. split; [reflexivity|]. split.
    + unfold history. cbn. now rewrite starts_app.
    + exists tk. split; [exact Hs'|]. now apply Hmeta.
Qed.

End EnqueueFacts.

Lemma enqueue_starts_idle_loop_witness :
  starts (history (@step utcHost Sample.morning
                     (Inbound (Sample.fromOwner (Sample.withText "one"))) initial))
  = [(0, Sample.withText "one")].
Proof.
  destruct (@enqueue_starts_idle_loop utcHost [] Sample.morning
              (Sample.fromOwner (Sample.withText "one")) (Sample.withText "one")
              eq_refl eq_refl) as (_ & _ & Hidle).
  destruct (Hidle eq_refl) as (_ & _ & Hst & _). exact Hst.
Defined.
